(** * xflower: the chat session life cycle of [app.py]

    [app.py] is a Streamlit page: on every interaction Streamlit re-runs the
    whole script against the per-browser-session dictionary
    [st.session_state].  The development embeds the script as state-passing
    functions over that dictionary and studies the three chat slots
    [start_chat], [thread_id] and [messages].

    - The session dictionary is a [gmap string value].
    - The hosted assistant (OpenAI client) is an interface, [AssistantService],
      over an abstract world; every call may raise.
    - What the page renders and which remote calls are issued is recorded in
      a trace of [event]s.
    - A Python exception is the [Raise] outcome; the session dictionary
      keeps whatever had been written before the exception. *)

From stdpp Require Import base option strings list gmap pretty.

(** ** Data model *)

(** The two literals used for [message["role"]]. *)
Inductive Role := user | assistant.

(** A chat message, the dict [{"role": ..., "content": ...}]. *)
Record Message := mkMessage { role : Role; content : string }.

(** Python values that the chat slots of [st.session_state] can hold. *)
Inductive value :=
| VNone
| VBool (b : bool)
| VStr (s : string)
| VList (l : list Message).

(** Python truthiness, as used by [if st.session_state.start_chat]. *)
Definition truthy (v : value) : bool :=
  match v with
  | VNone => false
  | VBool b => b
  | VStr s => negb (String.eqb s "")
  | VList l => negb (bool_decide (l = []))
  end.

#[global] Instance Role_eq_dec : EqDecision Role.
Proof. solve_decision. Defined.

#[global] Instance Message_eq_dec : EqDecision Message.
Proof. solve_decision. Defined.

#[global] Instance value_eq_dec : EqDecision value.
Proof. solve_decision. Defined.

(** Exceptions that the script can let escape. *)
Inductive exn :=
| AttributeError (name : string)
| TypeError (what : string)
| ServiceError (detail : string)
| OSError (detail : string).

Inductive outcome (A : Type) :=
| Ok (a : A)
| Raise (e : exn).
Arguments Ok {A} a.
Arguments Raise {A} e.

(** What one run of the script shows on the page and asks of the assistant
    service, in program order. *)
Inductive event :=
| StSetPageConfig (page_title : option string)
| StMarkdown (body : string)
| StSidebarImage (path : string)
| StSidebarTitle (body : string)
| StLogoutButton (label : string)
| StError (body : string)
| StWarning (body : string)
| StWrite (body : option string)
| StChatMessage (r : Role) (body : string)
| StChatInput (placeholder : option string)
| StChatStream (r : Role) (deltas : list string)
| ApiOpenAI (api_key : option string)
| ApiAssistantsRetrieve (assistant_key : option string)
| ApiThreadsCreate
| ApiMessagesCreate (thread_id : value) (r : Role) (body : string)
| ApiRunStream (thread_id : value) (assistant_id : string)
               (model instructions : option string).

(** ** Configuration: [class Config] *)

(** [os.getenv(key)]: the value, or [None] when the variable is not set.
    The environment is the one left by [load_dotenv()]. *)
Definition getenv (environ : gmap string string) (key : string) : option string :=
  environ !! key.

Record Config := mkConfig {
  API_KEY : option string;
  ASSISTANT_KEY : option string;
  PAGE_TITLE : option string;
  WELCOME_MESSAGE : option string;
  INSTRUCTIONS : option string;
  USER_PROMPT : option string;
  BEGIN_MESSAGE : option string;
  EXIT_MESSAGE : option string;
  START_CHAT_BUTTON : option string;
  OPENAI_MODEL : option string;
  DISCLAIMER : option string;
  LOGO : option string
}.

(** The class body of [Config], evaluated when the script is (re)run. *)
Definition load_Config (environ : gmap string string) : Config :=
  {| API_KEY := getenv environ "API_KEY";
     ASSISTANT_KEY := getenv environ "ASSISTANT_KEY";
     PAGE_TITLE := getenv environ "PAGE_TITLE";
     WELCOME_MESSAGE := getenv environ "WELCOME_MESSAGE";
     INSTRUCTIONS := getenv environ "INSTRUCTIONS";
     USER_PROMPT := getenv environ "USER_PROMPT";
     BEGIN_MESSAGE := getenv environ "BEGIN_MESSAGE";
     EXIT_MESSAGE := getenv environ "EXIT_MESSAGE";
     START_CHAT_BUTTON := getenv environ "START_CHAT_BUTTON";
     OPENAI_MODEL := getenv environ "OPENAI_MODEL";
     DISCLAIMER := getenv environ "DISCLAIMER";
     LOGO := getenv environ "LOGO" |}.



(** ** The assistant service *)

(** The operations of the OpenAI client that the script consumes.  Each one
    threads the state of the outside world and may raise.  A streamed run
    that could be opened delivers some text deltas and then either
    completes ([None]) or fails. *)
Class AssistantService (W : Type) := {
  openai_client : option string → W → outcome () * W;
  assistants_retrieve : option string → W → outcome string * W;
  threads_create : W → outcome string * W;
  messages_create : value → Role → string → W → outcome () * W;
  create_and_stream :
    value → string → option string → option string → W →
    outcome (list string * option exn) * W
}.

(** ** The script monad: session state, trace, world, exceptions *)

Section Script.
Context {W : Type} `{!AssistantService W}.

Record run_state := mkRun {
  session : gmap string value;
  trace : list event;
  world : W
}.

Definition M (A : Type) : Type := run_state → outcome A * run_state.

#[export] Instance M_ret : MRet M := λ A a st, (Ok a, st).

#[export] Instance M_bind : MBind M := λ A B f m st,
  match m st with
  | (Ok a, st') => f a st'
  | (Raise e, st') => (Raise e, st')
  end.

Definition raise {A} (e : exn) : M A := λ st, (Raise e, st).

Definition emit (ev : event) : M () := λ st,
  (Ok (), mkRun (session st) (trace st ++ [ev]) (world st)).

(** [st.session_state.<key>]: an absent key is an [AttributeError]. *)
Definition get_attr (key : string) : M value := λ st,
  match session st !! key with
  | Some v => (Ok v, st)
  | None => (Raise (AttributeError key), st)
  end.

(** [st.session_state.<key> = v] and [st.session_state[key] = v]. *)
Definition set_attr (key : string) (v : value) : M () := λ st,
  (Ok (), mkRun (<[key := v]> (session st)) (trace st) (world st)).

(** [key in st.session_state]. *)
Definition has_key (key : string) : M bool := λ st,
  (Ok (bool_decide (is_Some (session st !! key))), st).

(** [st.session_state.setdefault(key, default)]. *)
Definition setdefault (key : string) (default : value) : M () := λ st,
  match session st !! key with
  | Some _ => (Ok (), st)
  | None => set_attr key default st
  end.

(** A remote call: logged, then answered by the service. *)
Definition call {A} (ev : event) (op : W → outcome A * W) : M A := λ st,
  let '(r, w) := op (world st) in
  (r, mkRun (session st) (trace st ++ [ev]) w).

(** [for x in xs: body(x)]. *)
Fixpoint for_each {A} (xs : list A) (body : A → M ()) : M () :=
  match xs with
  | [] => mret ()
  | x :: xs' => body x ;; for_each xs' body
  end.

(** ** The functions of [app.py] *)

(** [OpenAI(api_key=...)], then [client.beta.assistants.retrieve(...)].
    The client is the service itself; the assistant is kept by its [id]. *)
Definition initialize_openai_client (cfg : Config) : M string :=
  call (ApiOpenAI (API_KEY cfg)) (openai_client (API_KEY cfg)) ;;
  call (ApiAssistantsRetrieve (ASSISTANT_KEY cfg))
       (assistants_retrieve (ASSISTANT_KEY cfg)).

(** The style sheet injected by [apply_custom_css]. *)
Definition custom_css : string :=
  "
        <style>
            @import url('https://fonts.googleapis.com/css2?family=Montserrat:wght@400;500;700&display=swap');

            * {
                font-family: 'Montserrat', sans-serif;
            }

            .reportview-container {margin-top: -2em;}
            #MainMenu, header {visibility: hidden;}
            footer {visibility: hidden;}

            /* Custom style for header */
            h1 {
                font-family: 'Montserrat', sans-serif;
                font-weight: 500;
                font-size: 30px;
            }

            /* Style for input prompts */
            input, textarea, select, button {
                font-family: 'Montserrat', sans-serif;
            }
        </style>
    ".

Definition apply_custom_css : M () :=
  emit (StMarkdown custom_css).

Definition page_header : string :=
  "<h1 style='font-size:30px; font-weight:500;'>Miben segíthetek ma?</h1>".

(** [os.path.isfile(path)]: a [None] path makes [os.stat] raise a
    [TypeError], which [isfile] does not catch. *)
Definition os_path_isfile (isfile : string → bool) (path : option string) : M bool :=
  match path with
  | Some p => mret (isfile p)
  | None => raise (TypeError "stat: path should be string, bytes, os.PathLike or integer, not NoneType")
  end.

Definition setup_streamlit_ui (cfg : Config) (isfile : string → bool) : M () :=
  emit (StSetPageConfig (PAGE_TITLE cfg)) ;;
  apply_custom_css ;;
  is_logo ← os_path_isfile isfile (LOGO cfg) ;
  (if is_logo : bool then emit (StSidebarImage (default "" (LOGO cfg)))
   else mret () : M ()) ;;
  emit (StMarkdown page_header).

(** The [defaults] dictionary, in insertion order. *)
Definition defaults : list (string * value) :=
  [ ("start_chat", VBool false); ("thread_id", VNone); ("messages", VList []) ].

Definition initialize_chat_variables : M () :=
  for_each defaults (λ kd, setdefault kd.1 kd.2).

Definition start_new_chat_session : M () :=
  set_attr "start_chat" (VBool true) ;;
  thread_id ← call ApiThreadsCreate threads_create ;
  set_attr "thread_id" (VStr thread_id) ;;
  set_attr "messages" (VList []) ;;
  set_attr "start_chat" (VBool true).

Definition reset_chat_session : M () :=
  set_attr "messages" (VList []) ;;
  set_attr "start_chat" (VBool false) ;;
  set_attr "thread_id" VNone.

(** Iterating [st.session_state.messages]: only a list of messages (or a
    value with nothing to iterate) gets through the loop. *)
Definition display_chat_messages : M () :=
  messages ← get_attr "messages" ;
  match messages with
  | VList l => for_each l (λ m, emit (StChatMessage (role m) (content m)))
  | VStr "" => mret ()
  | VStr _ => raise (TypeError "string indices must be integers")
  | VNone | VBool _ => raise (TypeError "object is not iterable")
  end.

(** [st.session_state.messages.append(m)]: the list held by the slot is
    extended in place; any other value has no [append]. *)
Definition messages_append (m : Message) : M () :=
  messages ← get_attr "messages" ;
  match messages with
  | VList l => set_attr "messages" (VList (l ++ [m]))
  | _ => raise (AttributeError "append")
  end.

(** [st.write_stream] over a text-only stream returns the joined text. *)
Definition joined (deltas : list string) : string := String.concat "" deltas.

(** The [with client.beta.threads.runs.create_and_stream(...)] block: the
    run is requested; inside [st.chat_message("assistant")],
    [st.write_stream] renders the deltas that arrive and returns their
    joined text; a failure of the request or of the stream escapes the
    block. *)
Definition stream_run (cfg : Config) (thread_id : value) (assistant_id : string)
    : M string := λ st,
  let requested :=
    trace st ++ [ApiRunStream thread_id assistant_id (OPENAI_MODEL cfg)
                              (INSTRUCTIONS cfg)] in
  match create_and_stream thread_id assistant_id (OPENAI_MODEL cfg)
                          (INSTRUCTIONS cfg) (world st) with
  | (Raise e, w) => (Raise e, mkRun (session st) requested w)
  | (Ok (deltas, failure), w) =>
      let st' := mkRun (session st) (requested ++ [StChatStream assistant deltas]) w in
      match failure with
      | Some e => (Raise e, st')
      | None => (Ok (joined deltas), st')
      end
  end.

Definition process_and_display_chat_interaction
    (cfg : Config) (user_input : string) (assistant_id : string) : M () :=
  messages_append (mkMessage user user_input) ;;
  emit (StChatMessage user user_input) ;;
  thread_id ← get_attr "thread_id" ;
  if bool_decide (thread_id = VNone) then
    (emit (StError "Thread ID is None. Starting a new chat session.") ;;
     start_new_chat_session)
  else
    (thread_id ← get_attr "thread_id" ;
     call (ApiMessagesCreate thread_id user user_input)
          (messages_create thread_id user user_input)) ;;
    response ← (thread_id ← get_attr "thread_id" ;
                stream_run cfg thread_id assistant_id) ;
    messages_append (mkMessage assistant response).

(** What [st.chat_input] hands back is used only if it is truthy. *)
Definition submitted (chat_input : option string) : option string :=
  match chat_input with
  | Some s => if String.eqb s "" then None else Some s
  | None => None
  end.

Definition handle_chat_interaction
    (cfg : Config) (chat_input : option string) (assistant_id : string) : M () :=
  present ← has_key "start_chat" ;
  started ← (if present : bool then v ← get_attr "start_chat" ; mret (truthy v)
             else mret false) ;
  if started : bool then
    display_chat_messages ;;
    emit (StChatInput (USER_PROMPT cfg)) ;;
    match submitted chat_input with
    | Some user_input =>
        process_and_display_chat_interaction cfg user_input assistant_id
    | None => mret ()
    end
  else
    emit (StWrite (BEGIN_MESSAGE cfg)).

(** What the outside hands to one run of the script: the file system test
    for the logo, the outcome of reading [hashed_pw.pkl], the
    [authentication_status] returned by [authenticator.login], and the text
    in the chat box, if any. *)
Record page_input := mkInput {
  isfile : string → bool;
  hashed_pw : option exn;
  authentication_status : option bool;
  chat_input : option string
}.

(** The [__main__] block: one run of the script. *)
Definition main (cfg : Config) (inp : page_input) : M () :=
  assistant_id ← initialize_openai_client cfg ;
  setup_streamlit_ui cfg (isfile inp) ;;
  (match hashed_pw inp with Some e => raise e | None => mret () end : M ()) ;;
  (if bool_decide (authentication_status inp = Some false)
   then emit (StError "Username/password is incorrect") else mret () : M ()) ;;
  (if bool_decide (authentication_status inp = None)
   then emit (StWarning "Írja be a felhasználónevét és jelszavát!")
   else mret () : M ()) ;;
  if bool_decide (authentication_status inp = Some true) then
    emit (StSidebarTitle "Üdvözlünk az xFLOWer AI Tudásbázisában!") ;;
    emit (StLogoutButton "Kilépés") ;;
    initialize_chat_variables ;;
    start_new_chat_session ;;
    handle_chat_interaction cfg (chat_input inp) assistant_id
  else mret ().

(** ** Vocabulary of the specification *)

(** The two remote calls of one turn, as the handler issues them: post the
    user message, then run the assistant and collect the streamed text. *)
Definition assistant_call (cfg : Config) (thread_id : value)
    (assistant_id user_input : string) (w : W) : outcome (list string) * W :=
  match messages_create thread_id user user_input w with
  | (Raise e, w1) => (Raise e, w1)
  | (Ok _, w1) =>
      match create_and_stream thread_id assistant_id (OPENAI_MODEL cfg)
                              (INSTRUCTIONS cfg) w1 with
      | (Raise e, w2) => (Raise e, w2)
      | (Ok (_, Some e), w2) => (Raise e, w2)
      | (Ok (deltas, None), w2) => (Ok deltas, w2)
      end
  end.

(** The keys of the three chat slots. *)
Definition chat_keys : list string := defaults.*1.

(** No chat slot has been written yet. *)
Definition unset (s : gmap string value) : Prop :=
  ∀ key, key ∈ chat_keys → s !! key = None.

(** The session states that a browser session can be left in.  It starts
    with an empty dictionary.  Every run of the script, whatever the outside
    does and however the run ends, leaves the next one.  The authenticator
    keeps entries of its own in the same dictionary and may change them at
    any time; it does not touch the chat slots. *)
Inductive reachable : gmap string value → Prop :=
| reachable_fresh : reachable ∅
| reachable_foreign s s' :
    reachable s →
    (∀ key, key ∈ chat_keys → s' !! key = s !! key) →
    reachable s'
| reachable_run s cfg inp tr w :
    reachable s → reachable (session (main cfg inp (mkRun s tr w)).2).

(** The session states that the chat operations can pass through, not
    only those a run of the script ends in: from an empty dictionary, the
    state after any of the session-state operations, run on their own or
    inside [handle_chat_interaction] or a whole run, whether the operation
    returns or raises; and, as before, after any change of the entries that
    are not chat slots. *)
Inductive visited : gmap string value → Prop :=
| visited_fresh : visited ∅
| visited_foreign s s' :
    visited s →
    (∀ key, key ∈ chat_keys → s' !! key = s !! key) →
    visited s'
| visited_initialize s tr w :
    visited s → visited (session (initialize_chat_variables (mkRun s tr w)).2)
| visited_reset s tr w :
    visited s → visited (session (reset_chat_session (mkRun s tr w)).2)
| visited_start_new s tr w :
    visited s → visited (session (start_new_chat_session (mkRun s tr w)).2)
| visited_process s cfg user_input assistant_id tr w :
    visited s →
    visited (session (process_and_display_chat_interaction cfg user_input assistant_id
                        (mkRun s tr w)).2)
| visited_handle s cfg chat_input assistant_id tr w :
    visited s →
    visited (session (handle_chat_interaction cfg chat_input assistant_id
                        (mkRun s tr w)).2)
| visited_run s cfg inp tr w :
    visited s → visited (session (main cfg inp (mkRun s tr w)).2).

(** The log is never there without the [thread_id] slot, and a
    [thread_id] other than [None] is only there on a started chat. *)
Definition thread_accounted (s : gmap string value) : Prop :=
  (is_Some (s !! "messages") → is_Some (s !! "thread_id")) ∧
  (∀ v, s !! "thread_id" = Some v →
        v = VNone ∨ s !! "start_chat" = Some (VBool true)).


(** [thread_id] is [None] whenever the log is empty and the chat is not
    started. *)
Definition no_thread_when_idle (s : gmap string value) : Prop :=
  s !! "messages" = Some (VList []) →
  s !! "start_chat" = Some (VBool false) →
  s !! "thread_id" = Some VNone.

(** A dictionary in which [thread_id] is not there without the other two
    chat slots. *)
Definition thread_slot_accompanied (s : gmap string value) : Prop :=
  is_Some (s !! "thread_id") →
  is_Some (s !! "start_chat") ∧ is_Some (s !! "messages").

(** The log holds at least one message. *)
Definition log_nonempty (s : gmap string value) : Prop :=
  ∃ l, s !! "messages" = Some (VList l) ∧ l ≠ [].

(** The chat is marked as started. *)
Definition chat_started (s : gmap string value) : Prop :=
  s !! "start_chat" = Some (VBool true).

(** Chat slots after initialisation: no thread means an empty log, and a
    thread means a started chat. *)
Definition settled (s : gmap string value) : Prop :=
  ∃ b tid l,
    s !! "start_chat" = Some (VBool b) ∧
    s !! "thread_id" = Some tid ∧
    s !! "messages" = Some (VList l) ∧
    ((tid = VNone ∧ l = []) ∨ (∃ t, tid = VStr t ∧ b = true)).


(** A chat that has just been started: a thread and an empty log. *)
Definition fresh_chat (s : gmap string value) : Prop :=
  s !! "start_chat" = Some (VBool true) ∧
  s !! "messages" = Some (VList []) ∧
  ∃ tid, s !! "thread_id" = Some (VStr tid).

(** How [display_chat_messages] shows one message. *)
Definition shown (m : Message) : event := StChatMessage (role m) (content m).

(** Events of the chat itself: its widgets and the calls about threads. *)
Definition chat_event (ev : event) : bool :=
  match ev with
  | StChatMessage _ _ | StChatInput _ | StChatStream _ _
  | ApiThreadsCreate | ApiMessagesCreate _ _ _ | ApiRunStream _ _ _ _ => true
  | _ => false
  end.

(** The idle screen: [st.write(Config.BEGIN_MESSAGE)]. *)
Definition idle_text (ev : event) : bool :=
  match ev with
  | StWrite _ => true
  | _ => false
  end.

(** The banners of the login outcome: [st.error] and [st.warning]. *)
Definition banner (ev : event) : bool :=
  match ev with
  | StError _ | StWarning _ => true
  | _ => false
  end.

(** The banner that [__main__] shows for an [authentication_status] that is
    not [True]. *)
Definition login_banner (status : option bool) : event :=
  match status with
  | Some false => StError "Username/password is incorrect"
  | _ => StWarning "Írja be a felhasználónevét és jelszavát!"
  end.

(** From a session satisfying [Pre], the computation only adds events
    satisfying [P] to the trace, and removes none. *)
Definition emits_on {A} (Pre : gmap string value → Prop) (P : event → Prop)
    (m : M A) : Prop :=
  ∀ st, Pre (session st) →
    ∃ evs, trace (m st).2 = trace st ++ evs ∧ Forall P evs.

(** A log that holds at most one exchange. *)
Definition one_exchange (l : list Message) : Prop :=
  l = [] ∨ (∃ u, l = [mkMessage user u]) ∨
  (∃ u r, l = [mkMessage user u; mkMessage assistant r]).

(** The [messages] slot holds a log of at most one exchange. *)
Definition short_log (s : gmap string value) : Prop :=
  ∃ l, s !! "messages" = Some (VList l) ∧ one_exchange l.

(** The chat slots right after a completed turn on the text [u]. *)
Definition one_turn (u : string) (s : gmap string value) : Prop :=
  s !! "start_chat" = Some (VBool true) ∧
  ∃ tid r, s !! "thread_id" = Some (VStr tid) ∧
           s !! "messages" = Some (VList [mkMessage user u; mkMessage assistant r]).

(** A computation that never writes the session dictionary. *)
Definition silent {A} (m : M A) : Prop := ∀ st, session (m st).2 = session st.

(** A statement about the session dictionary across a computation: from a
    session satisfying [P], a normal return leaves one satisfying [Q] and
    an exception leaves one satisfying [R]. *)
Definition triple {A} (P : gmap string value → Prop) (m : M A)
    (Q R : gmap string value → Prop) : Prop :=
  ∀ st, P (session st) →
    match m st with
    | (Ok _, st') => Q (session st')
    | (Raise _, st') => R (session st')
    end.

End Script.

Arguments run_state W : clear implicits.
Arguments M W A : clear implicits.

(** ** A scripted service for concrete runs *)

(** A world that counts the threads it has handed out and is told in
    advance which calls fail and what the assistant answers. *)
Record demo_world := mkDemo {
  created : nat;
  create_fails : bool;
  post_fails : bool;
  run_fails : bool;
  reply : list string
}.

Definition demo_thread (n : nat) : string := "thread_" +:+ pretty n.

#[export] Instance demo_service : AssistantService demo_world := {|
  openai_client _ w := (Ok (), w);
  assistants_retrieve _ w := (Ok "asst_demo", w);
  threads_create w :=
    if create_fails w then (Raise (ServiceError "threads.create"), w)
    else (Ok (demo_thread (created w)),
          mkDemo (S (created w)) (create_fails w) (post_fails w) (run_fails w) (reply w));
  messages_create _ _ _ w :=
    if post_fails w then (Raise (ServiceError "messages.create"), w)
    else (Ok (), w);
  create_and_stream _ _ _ _ w :=
    if run_fails w then (Ok (take 1 (reply w), Some (ServiceError "runs.create_and_stream")), w)
    else (Ok (reply w, None), w)
|}.

(** An environment in which every variable read by [Config] is set. *)
Definition demo_environ : gmap string string :=
  list_to_map
    [ ("API_KEY", "sk-demo"); ("ASSISTANT_KEY", "asst_demo");
      ("PAGE_TITLE", "xFLOWer"); ("WELCOME_MESSAGE", "Welcome");
      ("INSTRUCTIONS", "Be helpful"); ("USER_PROMPT", "Your question");
      ("BEGIN_MESSAGE", "Press start"); ("EXIT_MESSAGE", "Bye");
      ("START_CHAT_BUTTON", "Start"); ("OPENAI_MODEL", "gpt-4");
      ("DISCLAIMER", "disclaimer.md"); ("LOGO", "logo.png") ].

Definition demo_cfg : Config := load_Config demo_environ.

Definition calm : demo_world := mkDemo 0 false false false ["Hel"; "lo!"].

Definition start (s : gmap string value) (w : demo_world) : run_state demo_world :=
  mkRun s [] w.

Definition visit (text : option string) : page_input :=
  mkInput (λ _, true) None (Some true) text.

(** A session in the middle of a conversation. *)
Definition m1 : Message := mkMessage user "Hello".
Definition m2 : Message := mkMessage assistant "Hi, how can I help?".

Definition chatting : gmap string value :=
  <["messages" := VList [m1; m2]]>
    (<["thread_id" := VStr "thread_0"]> (<["start_chat" := VBool true]> ∅)).

(** The same log with the thread identifier lost. *)
Definition orphaned : gmap string value :=
  <["thread_id" := VNone]> chatting.

(** The service after it has handed out the thread of that conversation. *)
Definition serving : demo_world := mkDemo 1 false false false ["Hel"; "lo!"].

(** The same service, refusing the message post. *)
Definition refusing : demo_world := mkDemo 1 false true false ["Hel"; "lo!"].



(** The session left by a first visit in which "Hi" is submitted. *)
Definition after_first_turn : run_state demo_world :=
  (main demo_cfg (visit (Some "Hi")) (start ∅ calm)).2.

(** The next run of the script in that browser session: the page is
    rendered again, nothing is typed, nobody logs out. *)
Definition after_rerender : run_state demo_world :=
  (main demo_cfg (visit None)
        (start (session after_first_turn) (world after_first_turn))).2.

(** A service that cannot create threads. *)
Definition down : demo_world := mkDemo 1 true false false ["Hel"; "lo!"].

(** A service whose run breaks after the first delta. *)
Definition breaking : demo_world := mkDemo 1 false false true ["Hel"; "lo!"].

(** A session whose log is there but whose [thread_id] slot is not. *)
Definition threadless : gmap string value :=
  <["messages" := VList [m1]]> (<["start_chat" := VBool true]> ∅).

(** The environment without a logo. *)
Definition logoless_environ : gmap string string :=
  delete "LOGO" demo_environ.

(** A visit that is not (yet) logged in. *)
Definition knock (status : option bool) (text : option string) : page_input :=
  mkInput (λ _, true) None status text.

(** That session after the conversation has been reset. *)
Definition after_reset : run_state demo_world :=
  (reset_chat_session
     (start (session after_first_turn) (world after_first_turn))).2.

Section Exec.
Context {W : Type} `{!AssistantService W}.
Implicit Types (st : run_state W) (l : list Message).

Lemma bind_ok {A B} (m : M W A) (f : A → M W B) st a st' :
  m st = (Ok a, st') → (m ≫= f) st = f a st'.
Proof. intros E. unfold mbind, M_bind. by rewrite E. Qed.

Lemma bind_raise {A B} (m : M W A) (f : A → M W B) st e st' :
  m st = (Raise e, st') → (m ≫= f) st = (Raise e, st').
Proof. intros E. unfold mbind, M_bind. by rewrite E. Qed.

Lemma messages_append_list m st l :
  session st !! "messages" = Some (VList l) →
  messages_append m st =
    (Ok (), mkRun (<["messages" := VList (l ++ [m])]> (session st)) (trace st) (world st)).
Proof.
  intros E. unfold messages_append.
  erewrite bind_ok; last by (unfold get_attr; rewrite E).
  done.
Qed.

Lemma start_new_chat_session_ok st tid w' :
  threads_create (world st) = (Ok tid, w') →
  start_new_chat_session st =
    (Ok (), mkRun (<["start_chat" := VBool true]>
                     (<["messages" := VList []]>
                        (<["thread_id" := VStr tid]>
                           (<["start_chat" := VBool true]> (session st)))))
                  (trace st ++ [ApiThreadsCreate]) w').
Proof.
  intros E. unfold start_new_chat_session.
  erewrite bind_ok; last done.
  erewrite bind_ok; last by (unfold call; simpl; rewrite E).
  done.
Qed.

Lemma start_new_chat_session_raise st e w' :
  threads_create (world st) = (Raise e, w') →
  start_new_chat_session st =
    (Raise e, mkRun (<["start_chat" := VBool true]> (session st))
                    (trace st ++ [ApiThreadsCreate]) w').
Proof.
  intros E. unfold start_new_chat_session.
  erewrite bind_ok; last done.
  erewrite bind_raise; first done.
  unfold call; simpl. by rewrite E.
Qed.

Lemma process_thread_none cfg user_input assistant_id st l :
  session st !! "messages" = Some (VList l) →
  session st !! "thread_id" = Some VNone →
  process_and_display_chat_interaction cfg user_input assistant_id st =
    start_new_chat_session
      (mkRun (<["messages" := VList (l ++ [mkMessage user user_input])]> (session st))
             (trace st ++ [StChatMessage user user_input;
                           StError "Thread ID is None. Starting a new chat session."])
             (world st)).
Proof.
  intros Hm Ht. unfold process_and_display_chat_interaction.
  erewrite bind_ok; last by apply messages_append_list.
  erewrite bind_ok; last done.
  erewrite bind_ok; last first.
  { unfold get_attr; simpl. by rewrite lookup_insert_ne, Ht. }
  rewrite bool_decide_eq_true_2 by done.
  erewrite bind_ok; last done.
  simpl. by rewrite <- app_assoc.
Qed.

Lemma process_thread_set cfg user_input assistant_id st l tid :
  session st !! "messages" = Some (VList l) →
  session st !! "thread_id" = Some tid → tid ≠ VNone →
  process_and_display_chat_interaction cfg user_input assistant_id st =
    let logged := <["messages" := VList (l ++ [mkMessage user user_input])]> (session st) in
    let posted := trace st ++ [StChatMessage user user_input;
                               ApiMessagesCreate tid user user_input] in
    let requested := posted ++ [ApiRunStream tid assistant_id (OPENAI_MODEL cfg)
                                             (INSTRUCTIONS cfg)] in
    match messages_create tid user user_input (world st) with
    | (Raise e, w1) => (Raise e, mkRun logged posted w1)
    | (Ok _, w1) =>
        match create_and_stream tid assistant_id (OPENAI_MODEL cfg)
                                (INSTRUCTIONS cfg) w1 with
        | (Raise e, w2) => (Raise e, mkRun logged requested w2)
        | (Ok (deltas, Some e), w2) =>
            (Raise e, mkRun logged (requested ++ [StChatStream assistant deltas]) w2)
        | (Ok (deltas, None), w2) =>
            (Ok (), mkRun (<["messages" := VList (l ++ [mkMessage user user_input;
                                                       mkMessage assistant (joined deltas)])]>
                             (session st))
                          (requested ++ [StChatStream assistant deltas]) w2)
        end
    end.
Proof.
  intros Hm Ht Hne. unfold process_and_display_chat_interaction.
  erewrite bind_ok; last by apply messages_append_list.
  erewrite bind_ok; last done.
  assert (Hget : ∀ tr (w : W),
    get_attr "thread_id"
      (mkRun (<["messages" := VList (l ++ [mkMessage user user_input])]> (session st)) tr w)
    = (Ok tid, mkRun (<["messages" := VList (l ++ [mkMessage user user_input])]> (session st)) tr w)).
  { intros tr w. unfold get_attr; simpl. by rewrite lookup_insert_ne, Ht. }
  erewrite bind_ok; last by apply Hget.
  rewrite bool_decide_eq_false_2 by done.
  cbv zeta.
  destruct (messages_create tid user user_input (world st)) as [[[]|e] w1] eqn:Epost.
  - erewrite bind_ok; last first.
    { erewrite bind_ok; last by apply Hget.
      unfold call; simpl. by rewrite Epost. }
    destruct (create_and_stream tid assistant_id (OPENAI_MODEL cfg) (INSTRUCTIONS cfg) w1)
      as [[[deltas [e|]]|e] w2] eqn:Erun.
    + erewrite bind_raise; last first.
      { erewrite bind_ok; last by apply Hget.
        unfold stream_run; simpl. by rewrite Erun. }
      by rewrite <- !app_assoc.
    + erewrite bind_ok; last first.
      { erewrite bind_ok; last by apply Hget.
        unfold stream_run; simpl. by rewrite Erun. }
      erewrite messages_append_list; last by (simpl; apply lookup_insert_eq).
      simpl. by rewrite insert_insert_eq, <- !app_assoc.
    + erewrite bind_raise; last first.
      { erewrite bind_ok; last by apply Hget.
        unfold stream_run; simpl. by rewrite Erun. }
      by rewrite <- !app_assoc.
  - erewrite bind_raise; last first.
    { erewrite bind_ok; last by apply Hget.
      unfold call; simpl. by rewrite Epost. }
    by rewrite <- !app_assoc.
Qed.

(** ** Reasoning about the session across a computation *)

Lemma silent_ret {A} (a : A) : silent (mret a : M W A).
Proof. done. Qed.

Lemma silent_raise {A} e : silent (raise e : M W A).
Proof. done. Qed.

Lemma silent_emit ev : silent (emit ev : M W ()).
Proof. done. Qed.

Lemma silent_get_attr key : silent (get_attr key : M W value).
Proof. intros st. unfold get_attr. by destruct (session st !! key). Qed.

Lemma silent_has_key key : silent (has_key key : M W bool).
Proof. done. Qed.

Lemma silent_call {A} ev (op : W → outcome A * W) : silent (call ev op).
Proof. intros st. unfold call. by destruct (op (world st)). Qed.

Lemma silent_bind {A B} (m : M W A) (f : A → M W B) :
  silent m → (∀ a, silent (f a)) → silent (m ≫= f).
Proof.
  intros Hm Hf st. unfold mbind, M_bind.
  specialize (Hm st). destruct (m st) as [[a|e] st1]; simpl in *.
  - by rewrite Hf.
  - done.
Qed.

Lemma silent_for_each {A} (xs : list A) (body : A → M W ()) :
  (∀ x, silent (body x)) → silent (for_each xs body).
Proof.
  intros Hb. induction xs as [|x xs IH]; simpl.
  - apply silent_ret.
  - apply silent_bind; [apply Hb | intros _; apply IH].
Qed.

Lemma silent_stream_run cfg thread_id assistant_id :
  silent (stream_run cfg thread_id assistant_id : M W string).
Proof.
  intros st. unfold stream_run.
  destruct (create_and_stream _ _ _ _ _) as [[[ds [e|]]|e] w]; done.
Qed.

Lemma silent_initialize_openai_client cfg :
  silent (initialize_openai_client cfg : M W string).
Proof.
  apply silent_bind; [apply silent_call | intros _; apply silent_call].
Qed.

Lemma silent_setup_streamlit_ui cfg isfile :
  silent (setup_streamlit_ui cfg isfile : M W ()).
Proof.
  unfold setup_streamlit_ui, apply_custom_css, os_path_isfile.
  repeat (apply silent_bind; [|intros ?]);
    repeat case_match;
    auto using silent_emit, silent_ret, silent_raise.
Qed.

Lemma silent_display_chat_messages : silent (display_chat_messages : M W ()).
Proof.
  apply silent_bind; first apply silent_get_attr.
  intros v. repeat case_match;
    auto using silent_ret, silent_raise, silent_for_each, silent_emit.
Qed.

Lemma triple_silent {A} (m : M W A) P : silent m → triple P m P P.
Proof.
  intros Hm st HP. specialize (Hm st).
  destruct (m st) as [[a|e] st1]; simpl in *; by rewrite Hm.
Qed.

Lemma triple_bind {A B} (m : M W A) (f : A → M W B) P Q Q' R :
  triple P m Q R → (∀ a, triple Q (f a) Q' R) → triple P (m ≫= f) Q' R.
Proof.
  intros Hm Hf st HP. unfold mbind, M_bind.
  specialize (Hm st HP). destruct (m st) as [[a|e] st1]; last done.
  by apply Hf.
Qed.

Lemma triple_weaken {A} (m : M W A) (P P' Q Q' R R' : gmap string value → Prop) :
  triple P m Q R →
  (∀ s, P' s → P s) → (∀ s, Q s → Q' s) → (∀ s, R s → R' s) →
  triple P' m Q' R'.
Proof.
  intros Hm HP HQ HR st Hpre. specialize (Hm st (HP _ Hpre)).
  destruct (m st) as [[a|e] st1]; auto.
Qed.

(** ** The chat operations and the session slots *)

Lemma initialize_chat_variables_unset st :
  unset (session st) →
  initialize_chat_variables st =
    (Ok (), mkRun (<["messages" := VList []]>
                     (<["thread_id" := VNone]>
                        (<["start_chat" := VBool false]> (session st))))
                  (trace st) (world st)).
Proof.
  intros Hunset.
  assert (Hs : session st !! "start_chat" = None)
    by (apply Hunset; unfold chat_keys; simpl; rewrite !elem_of_cons; tauto).
  assert (Ht : session st !! "thread_id" = None)
    by (apply Hunset; unfold chat_keys; simpl; rewrite !elem_of_cons; tauto).
  assert (Hm : session st !! "messages" = None)
    by (apply Hunset; unfold chat_keys; simpl; rewrite !elem_of_cons; tauto).
  unfold initialize_chat_variables, defaults, for_each, mbind, M_bind, setdefault, set_attr.
  simpl. rewrite Hs. simpl. rewrite lookup_insert_ne, Ht by done. simpl.
  by rewrite !lookup_insert_ne, Hm by done.
Qed.

Lemma initialize_chat_variables_present st :
  is_Some (session st !! "start_chat") →
  is_Some (session st !! "thread_id") →
  is_Some (session st !! "messages") →
  initialize_chat_variables st = (Ok (), st).
Proof.
  intros [a Ha] [b Hb] [c Hc].
  unfold initialize_chat_variables, defaults, for_each, mbind, M_bind, setdefault.
  simpl. by rewrite Ha, Hb, Hc.
Qed.

Lemma initialize_chat_variables_returns st :
  ∃ st', initialize_chat_variables st = (Ok (), st') ∧
         is_Some (session st' !! "start_chat") ∧
         is_Some (session st' !! "thread_id") ∧
         is_Some (session st' !! "messages") ∧
         (∀ key v, session st !! key = Some v → session st' !! key = Some v) ∧
         (session st !! "thread_id" = None → session st' !! "thread_id" = Some VNone).
Proof.
  unfold initialize_chat_variables, defaults, for_each, mbind, M_bind, setdefault, set_attr.
  simpl.
  destruct (session st !! "start_chat") eqn:E1; simpl;
    rewrite ?lookup_insert_ne by done;
    destruct (session st !! "thread_id") eqn:E2; simpl;
    rewrite ?lookup_insert_ne by done;
    destruct (session st !! "messages") eqn:E3; simpl;
    (eexists; split; first done); simpl;
    split_and!; try (by simplify_map_eq); try done.
  all: intros key x Hk; repeat (rewrite lookup_insert_ne by congruence); done.
Qed.

Lemma messages_append_cases m st :
  (∃ l, session st !! "messages" = Some (VList l) ∧
        messages_append m st =
          (Ok (), mkRun (<["messages" := VList (l ++ [m])]> (session st))
                        (trace st) (world st))) ∨
  (∃ e, messages_append m st = (Raise e, st)).
Proof.
  destruct (session st !! "messages") as [v|] eqn:E.
  - destruct v as [|b|x|l].
    4: { left. exists l. split; first done. by apply messages_append_list. }
    all: right; eexists; unfold messages_append;
      (erewrite bind_ok; last by (unfold get_attr; rewrite E)); done.
  - right. eexists. unfold messages_append.
    erewrite bind_raise; last by (unfold get_attr; rewrite E). done.
Qed.

Lemma triple_silent_weak {A} (m : M W A) (P R : gmap string value → Prop) :
  silent m → (∀ s, P s → R s) → triple P m P R.
Proof.
  intros Hm HPR. eapply triple_weaken; first by apply (triple_silent m P).
  all: auto.
Qed.

Lemma triple_messages_append m (P Q R : gmap string value → Prop) :
  (∀ s, P s → R s) →
  (∀ s l, P s → s !! "messages" = Some (VList l) →
          Q (<["messages" := VList (l ++ [m])]> s)) →
  triple P (messages_append m : M W ()) Q R.
Proof.
  intros HPR HPQ st HP.
  destruct (messages_append_cases m st) as [(l & Hl & ->)|(e & ->)]; simpl; auto.
Qed.

Lemma triple_start_new_chat_session (P Q R : gmap string value → Prop) :
  (∀ s tid, P s →
     Q (<["start_chat" := VBool true]>
          (<["messages" := VList []]>
             (<["thread_id" := VStr tid]> (<["start_chat" := VBool true]> s))))) →
  (∀ s, P s → R (<["start_chat" := VBool true]> s)) →
  triple P (start_new_chat_session : M W ()) Q R.
Proof.
  intros HQ HR st HP.
  destruct (threads_create (world st)) as [[tid|e] w'] eqn:E.
  - rewrite (start_new_chat_session_ok _ _ _ E). simpl. auto.
  - rewrite (start_new_chat_session_raise _ _ _ E). simpl. auto.
Qed.



Lemma settled_no_thread_when_idle s : settled s → no_thread_when_idle s.
Proof.
  intros (b & tid & l & Hs & Ht & Hm & Hcase) _ Hs'.
  destruct Hcase as [[-> ->]|(t & -> & ->)]; [done | congruence].
Qed.

Lemma chat_started_no_thread_when_idle s : chat_started s → no_thread_when_idle s.
Proof. unfold chat_started. intros Hs _ Hs'. congruence. Qed.

Lemma log_nonempty_no_thread_when_idle s : log_nonempty s → no_thread_when_idle s.
Proof. intros (l & Hl & Hne) Hm _. congruence. Qed.








Lemma chat_slots_same (s s' : gmap string value) :
  (∀ key, key ∈ chat_keys → s' !! key = s !! key) →
  s' !! "start_chat" = s !! "start_chat" ∧
  s' !! "thread_id" = s !! "thread_id" ∧
  s' !! "messages" = s !! "messages".
Proof.
  intros Hsame.
  split_and!; apply Hsame; unfold chat_keys; simpl; rewrite !elem_of_cons; tauto.
Qed.



Lemma unset_no_thread_when_idle s : unset s → no_thread_when_idle s.
Proof.
  intros Hunset Hm.
  rewrite Hunset in Hm; first done.
  unfold chat_keys; simpl; rewrite !elem_of_cons; tauto.
Qed.

Lemma triple_process_idle cfg user_input assistant_id :
  triple no_thread_when_idle
    (process_and_display_chat_interaction cfg user_input assistant_id : M W ())
    no_thread_when_idle no_thread_when_idle.
Proof.
  pose (K := λ s : gmap string value, log_nonempty s ∨ chat_started s).
  assert (HK : ∀ s, K s → no_thread_when_idle s).
  { intros s [?|?];
      auto using log_nonempty_no_thread_when_idle, chat_started_no_thread_when_idle. }
  assert (Hlog : ∀ s, log_nonempty s → K s) by (by left).
  assert (Happ : ∀ m, triple log_nonempty (messages_append m : M W ()) K K).
  { intros m. apply triple_messages_append; first done.
    intros s l _ _. left. exists (l ++ [m]). split; first by simplify_map_eq.
    by destruct l. }
  unfold process_and_display_chat_interaction.
  eapply triple_bind.
  { apply (triple_messages_append _ _ log_nonempty); first done.
    intros s l _ _. exists (l ++ [mkMessage user user_input]).
    split; first by simplify_map_eq. by destruct l. }
  intros _. eapply triple_weaken with (P := log_nonempty) (Q := K) (R := K); auto.
  eapply triple_bind; first by apply triple_silent_weak; [apply silent_emit|]. intros _.
  eapply triple_bind; first by apply triple_silent_weak; [apply silent_get_attr|].
  intros tid. case_bool_decide.
  - eapply triple_bind; first by apply triple_silent_weak; [apply silent_emit|]. intros _.
    apply triple_start_new_chat_session.
    + intros s t _. right. unfold chat_started. by simplify_map_eq.
    + intros s _. right. unfold chat_started. by simplify_map_eq.
  - eapply triple_bind.
    { apply triple_silent_weak; last done.
      apply silent_bind; first apply silent_get_attr. intros ?. apply silent_call. }
    intros _. eapply triple_bind.
    { apply triple_silent_weak; last done.
      apply silent_bind; first apply silent_get_attr.
      intros ?. apply silent_stream_run. }
    intros response. apply Happ.
Qed.

Lemma triple_initialize_idle :
  triple (λ s, no_thread_when_idle s ∧ thread_slot_accompanied s)
    (initialize_chat_variables : M W ()) no_thread_when_idle (λ _, False).
Proof.
  intros st [Hinv Hacc].
  destruct (initialize_chat_variables_returns st)
    as (st' & -> & _ & _ & _ & Hkeep & Hnew).
  intros Hm Hs.
  destruct (session st !! "thread_id") as [v|] eqn:Ht; last by apply Hnew.
  destruct Hacc as [[a Ha] [c Hc]]; first by eexists.
  pose proof (Hkeep _ _ Ha) as Ha'. pose proof (Hkeep _ _ Hc) as Hc'.
  assert (a = VBool false) as -> by congruence.
  assert (c = VList []) as -> by congruence.
  apply Hkeep, Hinv; done.
Qed.

Lemma triple_reset_idle (P : gmap string value → Prop) :
  triple P (reset_chat_session : M W ()) no_thread_when_idle (λ _, False).
Proof. intros st _. simpl. intros _ _. by simplify_map_eq. Qed.

Lemma triple_start_new_idle (P : gmap string value → Prop) :
  triple P (start_new_chat_session : M W ()) no_thread_when_idle no_thread_when_idle.
Proof.
  apply triple_start_new_chat_session; intros; apply chat_started_no_thread_when_idle;
    unfold chat_started; by simplify_map_eq.
Qed.

(** ** What a run of the script does to a running chat *)

(** An authenticated run in which nothing is submitted, if it gets to its
    end, leaves a started chat with an empty log, whatever the session held
    before the run. *)
Lemma main_rerender_fresh_chat cfg inp (st st' : run_state W) :
  authentication_status inp = Some true →
  submitted (chat_input inp) = None →
  main cfg inp st = (Ok (), st') →
  fresh_chat (session st').
Proof.
  intros Hauth Hquiet Hrun.
  assert (Hmain : triple (λ _, True) (main cfg inp : M W ()) fresh_chat (λ _, True)).
  { unfold main.
    eapply triple_bind;
      first by apply triple_silent, silent_initialize_openai_client.
    intros assistant_id.
    eapply triple_bind; first by apply triple_silent, silent_setup_streamlit_ui.
    intros _.
    eapply triple_bind.
    { apply triple_silent. destruct (hashed_pw inp); [apply silent_raise | apply silent_ret]. }
    intros _.
    eapply triple_bind.
    { apply triple_silent. case_bool_decide; [apply silent_emit | apply silent_ret]. }
    intros _.
    eapply triple_bind.
    { apply triple_silent. case_bool_decide; [apply silent_emit | apply silent_ret]. }
    intros _.
    rewrite bool_decide_eq_true_2 by done.
    eapply triple_bind; first by apply triple_silent, silent_emit. intros _.
    eapply triple_bind; first by apply triple_silent, silent_emit. intros _.
    apply triple_bind with (Q := λ _, True).
    { intros st0 _. by destruct (initialize_chat_variables st0) as [[[]|e] st1]. }
    intros _.
    apply triple_bind with (Q := fresh_chat).
    { apply triple_start_new_chat_session; last done.
      intros s tid _. unfold fresh_chat. split_and!; [by simplify_map_eq.. |].
      exists tid. by simplify_map_eq. }
    intros _. apply triple_silent_weak; last done.
    unfold handle_chat_interaction. rewrite Hquiet.
    apply silent_bind; first apply silent_has_key. intros present.
    apply silent_bind.
    { destruct present; last apply silent_ret.
      apply silent_bind; [apply silent_get_attr | intros ?; apply silent_ret]. }
    intros [].
    - apply silent_bind; first apply silent_display_chat_messages. intros _.
      apply silent_bind; [apply silent_emit | intros _; apply silent_ret].
    - apply silent_emit. }
  specialize (Hmain st I). by rewrite Hrun in Hmain.
Qed.

(** ** Invariants of the session *)


(** ** Starting a new chat session *)

(** C10. Whenever [start_new_chat_session] returns normally, the service
    has created a thread, and in the session left behind [start_chat] is
    [True], [thread_id] is the identifier of that thread, and [messages] is
    the empty list. *)
Theorem start_new_chat_session_post st st' :
  start_new_chat_session st = (Ok (), st') →
  ∃ tid,
    threads_create (world st) = (Ok tid, world st') ∧
    session st' !! "start_chat" = Some (VBool true) ∧
    session st' !! "thread_id" = Some (VStr tid) ∧
    session st' !! "messages" = Some (VList []).
Proof.
  intros Hrun.
  destruct (threads_create (world st)) as [[tid|e] w'] eqn:E.
  - rewrite (start_new_chat_session_ok _ _ _ E) in Hrun.
    injection Hrun as <-. exists tid. simpl. by simplify_map_eq.
  - by rewrite (start_new_chat_session_raise _ _ _ E) in Hrun.
Qed.

(** C6. Starting a new chat session clears the log: whatever the session
    held before, once the service has created the thread the function
    returns normally and [messages] is the empty list. *)
Theorem start_new_chat_session_clears_messages st tid w' :
  threads_create (world st) = (Ok tid, w') →
  ∃ st', start_new_chat_session st = (Ok (), st') ∧
         session st' !! "messages" = Some (VList []).
Proof.
  intros E. eexists. split; first by apply start_new_chat_session_ok.
  simpl. by simplify_map_eq.
Qed.

(** ** A submission while [thread_id] is [None] *)

(** C3. A submission handled while [thread_id] is [None] shows the user
    message and an error, asks the service for a new thread and for nothing
    else, and returns without posting the message or running the assistant.
    If the thread is created, the handler returns normally with the new
    identifier stored in [thread_id] and no assistant message in the log;
    if the creation fails, its error escapes and the log holds the old
    messages and the user message only. *)
Theorem submission_without_thread cfg user_input assistant_id st l :
  session st !! "messages" = Some (VList l) →
  session st !! "thread_id" = Some VNone →
  let r := process_and_display_chat_interaction cfg user_input assistant_id st in
  trace r.2 = trace st ++ [StChatMessage user user_input;
                           StError "Thread ID is None. Starting a new chat session.";
                           ApiThreadsCreate] ∧
  match threads_create (world st) with
  | (Ok tid, w') =>
      r.1 = Ok () ∧ world r.2 = w' ∧
      session r.2 !! "thread_id" = Some (VStr tid) ∧
      session r.2 !! "messages" = Some (VList [])
  | (Raise e, w') =>
      r.1 = Raise e ∧ world r.2 = w' ∧
      session r.2 !! "thread_id" = Some VNone ∧
      session r.2 !! "messages" = Some (VList (l ++ [mkMessage user user_input]))
  end.
Proof.
  intros Hm Ht r. subst r.
  rewrite (process_thread_none _ _ _ _ _ Hm Ht).
  destruct (threads_create (world st)) as [[tid|e] w'] eqn:E.
  - erewrite start_new_chat_session_ok; last by apply E.
    simpl. rewrite <- app_assoc. by simplify_map_eq.
  - erewrite start_new_chat_session_raise; last by apply E.
    simpl. rewrite <- app_assoc. by simplify_map_eq.
Qed.

(** C4. A submission handled while [thread_id] is [None] first appends the
    user message to the log; once the recovery has created the new thread,
    the handler returns normally and the log is empty, so that user message
    is no longer recorded. *)
Theorem recovery_discards_user_message cfg user_input assistant_id st l tid w' :
  session st !! "messages" = Some (VList l) →
  session st !! "thread_id" = Some VNone →
  threads_create (world st) = (Ok tid, w') →
  ∃ st1 st',
    messages_append (mkMessage user user_input) st = (Ok (), st1) ∧
    session st1 !! "messages" = Some (VList (l ++ [mkMessage user user_input])) ∧
    session st1 !! "thread_id" = Some VNone ∧
    process_and_display_chat_interaction cfg user_input assistant_id st = (Ok (), st') ∧
    session st' !! "messages" = Some (VList []).
Proof.
  intros Hm Ht E. do 2 eexists.
  split; first by apply messages_append_list.
  rewrite (process_thread_none _ _ _ _ _ Hm Ht).
  split_and!.
  - simpl. by simplify_map_eq.
  - simpl. by simplify_map_eq.
  - by apply start_new_chat_session_ok.
  - simpl. by simplify_map_eq.
Qed.

(** ** A submission on an existing thread *)

(** C5. A submission handled while [thread_id] holds a thread, when posting
    the message and running the assistant both succeed: the handler returns
    normally; the only change to the session is that [messages] has grown
    by the user message with exactly the submitted text followed by one
    assistant message with the streamed text; [thread_id] is as before. *)
Theorem successful_turn cfg user_input assistant_id st l t deltas w' :
  session st !! "messages" = Some (VList l) →
  session st !! "thread_id" = Some (VStr t) →
  assistant_call cfg (VStr t) assistant_id user_input (world st) = (Ok deltas, w') →
  ∃ st',
    process_and_display_chat_interaction cfg user_input assistant_id st = (Ok (), st') ∧
    session st' =
      <["messages" := VList (l ++ [mkMessage user user_input;
                                  mkMessage assistant (joined deltas)])]> (session st) ∧
    session st' !! "thread_id" = Some (VStr t) ∧
    trace st' = trace st ++ [StChatMessage user user_input;
                             ApiMessagesCreate (VStr t) user user_input;
                             ApiRunStream (VStr t) assistant_id (OPENAI_MODEL cfg)
                                          (INSTRUCTIONS cfg);
                             StChatStream assistant deltas] ∧
    world st' = w'.
Proof.
  intros Hm Ht Hcall.
  rewrite (process_thread_set _ _ _ _ _ _ Hm Ht) by done.
  unfold assistant_call in Hcall. cbv zeta.
  destruct (messages_create _ _ _ _) as [[[]|e] w1]; last done.
  destruct (create_and_stream _ _ _ _ _) as [[[ds [e|]]|e] w2]; [done | | done].
  injection Hcall as -> ->.
  eexists. split; first done. simpl.
  rewrite <- !app_assoc. by simplify_map_eq.
Qed.

(** C7. A submission handled while [thread_id] holds a thread, when posting
    the message or running the assistant fails: the error is not swallowed,
    it escapes the handler (Streamlit shows an escaped exception on the
    page); the only change to the session is that [messages] has grown by
    the user message, and no assistant message has been appended. *)
Theorem failed_turn cfg user_input assistant_id st l t e w' :
  session st !! "messages" = Some (VList l) →
  session st !! "thread_id" = Some (VStr t) →
  assistant_call cfg (VStr t) assistant_id user_input (world st) = (Raise e, w') →
  ∃ st',
    process_and_display_chat_interaction cfg user_input assistant_id st = (Raise e, st') ∧
    session st' = <["messages" := VList (l ++ [mkMessage user user_input])]> (session st) ∧
    world st' = w'.
Proof.
  intros Hm Ht Hcall.
  rewrite (process_thread_set _ _ _ _ _ _ Hm Ht) by done.
  unfold assistant_call in Hcall. cbv zeta.
  destruct (messages_create _ _ _ _) as [[[]|e1] w1].
  - destruct (create_and_stream _ _ _ _ _) as [[[ds [e2|]]|e2] w2]; [| done |].
    + injection Hcall as -> ->. by eexists.
    + injection Hcall as -> ->. by eexists.
  - injection Hcall as -> ->. by eexists.
Qed.

(** ** Configuration values *)



End Exec.

(** ** Concrete runs *)


Lemma start_new_chat_session_post_witness :
  start_new_chat_session (start chatting serving) =
    (Ok (), (start_new_chat_session (start chatting serving)).2) ∧
  ∃ tid,
    threads_create serving =
      (Ok tid, world (start_new_chat_session (start chatting serving)).2) ∧
    session (start_new_chat_session (start chatting serving)).2 !! "start_chat"
      = Some (VBool true) ∧
    session (start_new_chat_session (start chatting serving)).2 !! "thread_id"
      = Some (VStr tid) ∧
    session (start_new_chat_session (start chatting serving)).2 !! "messages"
      = Some (VList []).
Proof.
  split; first reflexivity.
  apply (start_new_chat_session_post (start chatting serving)). reflexivity.
Defined.

Lemma start_new_chat_session_clears_messages_witness :
  chatting !! "messages" = Some (VList [m1; m2]) ∧
  threads_create serving = (Ok "thread_1", mkDemo 2 false false false ["Hel"; "lo!"]) ∧
  ∃ st', start_new_chat_session (start chatting serving) = (Ok (), st') ∧
         session st' !! "messages" = Some (VList []).
Proof.
  split; first reflexivity. split; first reflexivity.
  apply (start_new_chat_session_clears_messages (start chatting serving) "thread_1"
           (mkDemo 2 false false false ["Hel"; "lo!"])).
  reflexivity.
Defined.

Lemma submission_without_thread_witness :
  let r := process_and_display_chat_interaction demo_cfg "Are you there?" "asst_demo"
             (start orphaned serving) in
  r.1 = Ok () ∧
  session r.2 !! "thread_id" = Some (VStr "thread_1") ∧
  session r.2 !! "messages" = Some (VList []) ∧
  trace r.2 = [StChatMessage user "Are you there?";
               StError "Thread ID is None. Starting a new chat session.";
               ApiThreadsCreate].
Proof.
  pose proof (submission_without_thread demo_cfg "Are you there?" "asst_demo"
                (start orphaned serving) [m1; m2] eq_refl eq_refl) as [Htrace Hpost].
  simpl in Hpost. destruct Hpost as (Hok & _ & Hthread & Hlog).
  intros r. split_and!; [exact Hok | exact Hthread | exact Hlog | exact Htrace].
Defined.

Lemma recovery_discards_user_message_witness :
  ∃ st1 st',
    messages_append (mkMessage user "Are you there?") (start orphaned serving)
      = (Ok (), st1) ∧
    session st1 !! "messages" = Some (VList ([m1; m2] ++ [mkMessage user "Are you there?"])) ∧
    session st1 !! "thread_id" = Some VNone ∧
    process_and_display_chat_interaction demo_cfg "Are you there?" "asst_demo"
      (start orphaned serving) = (Ok (), st') ∧
    session st' !! "messages" = Some (VList []).
Proof.
  apply (recovery_discards_user_message demo_cfg "Are you there?" "asst_demo"
           (start orphaned serving) [m1; m2] "thread_1"
           (mkDemo 2 false false false ["Hel"; "lo!"]));
    reflexivity.
Defined.

Lemma successful_turn_witness :
  ∃ st',
    process_and_display_chat_interaction demo_cfg "What is xFLOWer?" "asst_demo"
      (start chatting serving) = (Ok (), st') ∧
    session st' !! "messages" =
      Some (VList [m1; m2; mkMessage user "What is xFLOWer?";
                   mkMessage assistant "Hello!"]) ∧
    session st' !! "thread_id" = Some (VStr "thread_0").
Proof.
  assert (Hcall : assistant_call demo_cfg (VStr "thread_0") "asst_demo"
                    "What is xFLOWer?" serving = (Ok ["Hel"; "lo!"], serving))
    by reflexivity.
  destruct (successful_turn demo_cfg "What is xFLOWer?" "asst_demo"
              (start chatting serving) [m1; m2] "thread_0" ["Hel"; "lo!"] serving
              eq_refl eq_refl Hcall)
    as (st' & Hrun & Hsession & Hthread & _).
  exists st'. split; first exact Hrun. split; last exact Hthread.
  rewrite Hsession. reflexivity.
Defined.

Lemma failed_turn_witness :
  ∃ st',
    process_and_display_chat_interaction demo_cfg "What is xFLOWer?" "asst_demo"
      (start chatting refusing) = (Raise (ServiceError "messages.create"), st') ∧
    session st' !! "messages" =
      Some (VList [m1; m2; mkMessage user "What is xFLOWer?"]).
Proof.
  assert (Hcall : assistant_call demo_cfg (VStr "thread_0") "asst_demo"
                    "What is xFLOWer?" refusing
                  = (Raise (ServiceError "messages.create"), refusing))
    by reflexivity.
  destruct (failed_turn demo_cfg "What is xFLOWer?" "asst_demo"
              (start chatting refusing) [m1; m2] "thread_0"
              (ServiceError "messages.create") refusing
              eq_refl eq_refl Hcall)
    as (st' & Hrun & Hsession & _).
  exists st'. split; first exact Hrun.
  rewrite Hsession. reflexivity.
Defined.



(** C1. After a first turn the session holds the thread and the two
    messages of the turn; rendering the page again, with no logout and
    nothing submitted, leaves an empty log and another thread. *)
Theorem rerender_starts_new_chat :
  session after_first_turn !! "thread_id" = Some (VStr "thread_0") ∧
  session after_first_turn !! "messages" =
    Some (VList [mkMessage user "Hi"; mkMessage assistant "Hello!"]) ∧
  session after_rerender !! "thread_id" = Some (VStr "thread_1") ∧
  session after_rerender !! "messages" = Some (VList []).
Proof. by vm_compute. Qed.

(** ** Further behaviour of the chat operations *)

Section Behaviour.
Context {W : Type} `{!AssistantService W}.
Implicit Types (st : run_state W) (l : list Message).

Lemma chat_keys_elem key :
  key ∈ chat_keys ↔ key = "start_chat" ∨ key = "thread_id" ∨ key = "messages".
Proof. unfold chat_keys. simpl. rewrite !elem_of_cons, elem_of_nil. tauto. Qed.

Lemma chat_keys_other key :
  key ∉ chat_keys → "start_chat" ≠ key ∧ "thread_id" ≠ key ∧ "messages" ≠ key.
Proof.
  rewrite chat_keys_elem. intros Hkey.
  split_and!; intros <-; apply Hkey; auto.
Qed.

(** [initialize_chat_variables] always returns; it keeps every entry that
    is already in the session, changes no entry outside the chat slots,
    shows nothing, and running it again changes nothing more. *)
Theorem initialize_chat_variables_idempotent st :
  ∃ st',
    initialize_chat_variables st = (Ok (), st') ∧
    initialize_chat_variables st' = (Ok (), st') ∧
    (∀ key v, session st !! key = Some v → session st' !! key = Some v) ∧
    (∀ key, key ∉ chat_keys → session st' !! key = session st !! key) ∧
    trace st' = trace st ∧ world st' = world st.
Proof.
  destruct (initialize_chat_variables_returns st)
    as (st' & Hrun & Hs & Ht & Hm & Hkeep & _).
  exists st'. split; first done.
  split; first by apply initialize_chat_variables_present.
  split; first done.
  revert Hrun.
  unfold initialize_chat_variables, defaults, for_each, mbind, M_bind, setdefault, set_attr.
  simpl.
  destruct (session st !! "start_chat"); simpl;
    rewrite ?lookup_insert_ne by done;
    destruct (session st !! "thread_id"); simpl;
    rewrite ?lookup_insert_ne by done;
    destruct (session st !! "messages"); simpl;
    intros [= <-]; simpl.
  all: split; [|by split].
  all: intros key (? & ? & ?)%chat_keys_other;
    by rewrite ?lookup_insert_ne by done.
Qed.

(** [reset_chat_session] always returns and puts the chat slots back to
    what initialising a session without chat slots gives; afterwards
    [initialize_chat_variables] changes nothing; entries outside the chat
    slots are kept. *)
Theorem reset_chat_session_restores_defaults st :
  ∃ st',
    reset_chat_session st = (Ok (), st') ∧
    initialize_chat_variables st' = (Ok (), st') ∧
    (∀ st0 : run_state W, unset (session st0) →
       ∀ key, key ∈ chat_keys →
         session st' !! key = session (initialize_chat_variables st0).2 !! key) ∧
    (∀ key, key ∉ chat_keys → session st' !! key = session st !! key).
Proof.
  eexists. split; first done. simpl. split_and!.
  - apply initialize_chat_variables_present; simpl; by simplify_map_eq.
  - intros st0 Hunset key Hkey.
    rewrite initialize_chat_variables_unset by done. simpl.
    apply chat_keys_elem in Hkey as [->| [->| ->]]; by simplify_map_eq.
  - intros key (? & ? & ?)%chat_keys_other.
    by rewrite ?lookup_insert_ne by done.
Qed.

(** When the service cannot create the thread, [start_new_chat_session]
    lets the error escape after it has already marked the chat as started:
    [start_chat] is [True] and every other entry is as before. *)
Theorem start_new_chat_session_failure st e w' :
  threads_create (world st) = (Raise e, w') →
  ∃ st',
    start_new_chat_session st = (Raise e, st') ∧
    session st' !! "start_chat" = Some (VBool true) ∧
    (∀ key, key ≠ "start_chat" → session st' !! key = session st !! key) ∧
    world st' = w'.
Proof.
  intros E. eexists. split; first by apply start_new_chat_session_raise.
  simpl. split_and!; [by simplify_map_eq | | done].
  intros key Hkey. by rewrite lookup_insert_ne.
Qed.

(** A submission handled while the [messages] slot is missing or does not
    hold a list raises an [AttributeError] at once: nothing is shown, no
    call is made and the session is as before. *)
Theorem process_without_log cfg user_input assistant_id st :
  (∀ l, session st !! "messages" ≠ Some (VList l)) →
  ∃ name,
    process_and_display_chat_interaction cfg user_input assistant_id st =
      (Raise (AttributeError name), st).
Proof.
  intros Hlog. unfold process_and_display_chat_interaction.
  destruct (messages_append_cases (mkMessage user user_input) st)
    as [(l & Hl & _)|(e & Happ)]; first by destruct (Hlog l).
  assert (∃ name, e = AttributeError name) as [name ->].
  { revert Happ. unfold messages_append, mbind, M_bind, get_attr.
    destruct (session st !! "messages") as [[| | |l]|]; simpl;
      intros [= <-]; by eexists. }
  exists name. by erewrite bind_raise.
Qed.

(** A submission handled while the [thread_id] slot is missing (rather than
    [None]) is not recovered: the user message is logged and shown, then an
    [AttributeError] escapes; no thread is created and nothing is posted. *)
Theorem process_thread_slot_missing cfg user_input assistant_id st l :
  session st !! "messages" = Some (VList l) →
  session st !! "thread_id" = None →
  process_and_display_chat_interaction cfg user_input assistant_id st =
    (Raise (AttributeError "thread_id"),
     mkRun (<["messages" := VList (l ++ [mkMessage user user_input])]> (session st))
           (trace st ++ [StChatMessage user user_input]) (world st)).
Proof.
  intros Hm Ht. unfold process_and_display_chat_interaction.
  erewrite bind_ok; last by apply messages_append_list.
  erewrite bind_ok; last done.
  erewrite bind_raise; first done.
  unfold get_attr. simpl. by rewrite lookup_insert_ne, Ht.
Qed.

(** A submission handled on an existing thread never removes or reorders
    what the log already holds: however the turn ends, the log is the old
    one followed by the user message and at most one more message;
    [thread_id] and every other entry are as before. *)
Theorem process_keeps_history cfg user_input assistant_id st l tid :
  session st !! "messages" = Some (VList l) →
  session st !! "thread_id" = Some tid → tid ≠ VNone →
  ∃ rest,
    session (process_and_display_chat_interaction cfg user_input assistant_id st).2
      !! "messages" = Some (VList (l ++ mkMessage user user_input :: rest)) ∧
    length rest ≤ 1 ∧
    (∀ key, key ≠ "messages" →
       session (process_and_display_chat_interaction cfg user_input assistant_id st).2
         !! key = session st !! key).
Proof.
  intros Hm Ht Hne.
  rewrite (process_thread_set _ _ _ _ _ _ Hm Ht Hne). cbv zeta.
  destruct (messages_create _ _ _ _) as [[[]|e] w1].
  - destruct (create_and_stream _ _ _ _ _) as [[[ds [e|]]|e] w2]; simpl.
    + exists []. split_and!; [by simplify_map_eq | simpl; lia |].
      intros key Hkey. by rewrite lookup_insert_ne.
    + exists [mkMessage assistant (joined ds)].
      split_and!; [by simplify_map_eq | simpl; lia |].
      intros key Hkey. by rewrite lookup_insert_ne.
    + exists []. split_and!; [by simplify_map_eq | simpl; lia |].
      intros key Hkey. by rewrite lookup_insert_ne.
  - simpl. exists []. split_and!; [by simplify_map_eq | simpl; lia |].
    intros key Hkey. by rewrite lookup_insert_ne.
Qed.

(** ** Showing the log and taking a submission *)

Lemma for_each_shown l st :
  for_each l (λ m, emit (StChatMessage (role m) (content m))) st =
    (Ok (), mkRun (session st) (trace st ++ (shown <$> l)) (world st)).
Proof.
  revert st. induction l as [|m l IH]; intros st; simpl.
  - rewrite app_nil_r. by destruct st.
  - erewrite bind_ok; last done. rewrite IH. simpl.
    by rewrite <- app_assoc.
Qed.

Lemma handle_chat_interaction_started cfg chat_input assistant_id st v l :
  session st !! "start_chat" = Some v → truthy v = true →
  session st !! "messages" = Some (VList l) →
  handle_chat_interaction cfg chat_input assistant_id st =
    (match submitted chat_input with
     | Some user_input =>
         process_and_display_chat_interaction cfg user_input assistant_id
     | None => mret ()
     end)
      (mkRun (session st)
             (trace st ++ (shown <$> l) ++ [StChatInput (USER_PROMPT cfg)])
             (world st)).
Proof.
  intros Hs Hv Hm. unfold handle_chat_interaction.
  erewrite bind_ok; last first.
  { unfold has_key. rewrite Hs. by rewrite bool_decide_eq_true_2. }
  erewrite bind_ok; last first.
  { erewrite bind_ok; last by (unfold get_attr; rewrite Hs). done. }
  rewrite Hv.
  erewrite bind_ok; last first.
  { unfold display_chat_messages.
    erewrite bind_ok; last by (unfold get_attr; rewrite Hm).
    apply for_each_shown. }
  erewrite bind_ok; last done.
  simpl. by rewrite <- app_assoc.
Qed.

(** While the chat is not started ([start_chat] missing, or holding a
    value that is not truthy), [handle_chat_interaction] writes the idle
    text and nothing else: whatever is in the chat box is ignored, the log
    is not shown, no call is made and the session is as before. *)
Theorem handle_chat_interaction_idle cfg chat_input assistant_id st :
  (session st !! "start_chat" = None ∨
   ∃ v, session st !! "start_chat" = Some v ∧ truthy v = false) →
  handle_chat_interaction cfg chat_input assistant_id st =
    (Ok (), mkRun (session st) (trace st ++ [StWrite (BEGIN_MESSAGE cfg)]) (world st)).
Proof.
  intros [Hs|(v & Hs & Hv)]; unfold handle_chat_interaction.
  - erewrite bind_ok; last first.
    { unfold has_key. rewrite Hs. rewrite bool_decide_eq_false_2; first done.
      by intros [? ?]. }
    erewrite bind_ok; last done. done.
  - erewrite bind_ok; last first.
    { unfold has_key. rewrite Hs. by rewrite bool_decide_eq_true_2. }
    erewrite bind_ok; last first.
    { erewrite bind_ok; last by (unfold get_attr; rewrite Hs). done. }
    by rewrite Hv.
Qed.

(** With the chat started and nothing usable in the chat box (no text, or
    the empty text), [handle_chat_interaction] shows every message of the
    log once, in the order of the log, then the chat box, and stops there:
    no call is made and the session is as before. *)
Theorem handle_chat_interaction_quiet cfg chat_input assistant_id st v l :
  session st !! "start_chat" = Some v → truthy v = true →
  session st !! "messages" = Some (VList l) →
  chat_input = None ∨ chat_input = Some "" →
  handle_chat_interaction cfg chat_input assistant_id st =
    (Ok (), mkRun (session st)
                  (trace st ++ (shown <$> l) ++ [StChatInput (USER_PROMPT cfg)])
                  (world st)).
Proof.
  intros Hs Hv Hm Hquiet.
  rewrite (handle_chat_interaction_started _ _ _ _ _ _ Hs Hv Hm).
  by destruct Hquiet as [-> | ->].
Qed.

(** With the chat started, the log shown and a text in the chat box,
    [handle_chat_interaction] hands exactly that text to
    [process_and_display_chat_interaction], after the log and the chat box
    have been shown. *)
Theorem handle_chat_interaction_submits cfg user_input assistant_id st v l :
  session st !! "start_chat" = Some v → truthy v = true →
  session st !! "messages" = Some (VList l) →
  user_input ≠ "" →
  handle_chat_interaction cfg (Some user_input) assistant_id st =
    process_and_display_chat_interaction cfg user_input assistant_id
      (mkRun (session st)
             (trace st ++ (shown <$> l) ++ [StChatInput (USER_PROMPT cfg)])
             (world st)).
Proof.
  intros Hs Hv Hm Hne.
  rewrite (handle_chat_interaction_started _ _ _ _ _ _ Hs Hv Hm).
  simpl. destruct (String.eqb_spec user_input ""); done.
Qed.

(** [display_chat_messages] needs a log: with the [messages] slot missing
    it raises an [AttributeError], and with [None], a boolean or a
    non-empty string in the slot it raises a [TypeError]; in each case
    nothing is shown and the session is as before. *)
Theorem display_chat_messages_without_log st :
  (∀ l, session st !! "messages" ≠ Some (VList l)) →
  session st !! "messages" ≠ Some (VStr "") →
  ∃ e, display_chat_messages st = (Raise e, st) ∧
       (session st !! "messages" = None → e = AttributeError "messages") ∧
       (is_Some (session st !! "messages") → ∃ what, e = TypeError what).
Proof.
  intros Hlist Hempty. unfold display_chat_messages, mbind, M_bind, get_attr.
  destruct (session st !! "messages") as [[| b | [|c x] | l]|] eqn:E; simpl.
  - eexists. split_and!; [done | done | eauto].
  - eexists. split_and!; [done | done | eauto].
  - done.
  - eexists. split_and!; [done | done | eauto].
  - by destruct (Hlist l).
  - eexists. split_and!; [done | done |]. by intros [? ?].
Qed.

(** ** What a computation adds to the trace *)

Lemma emits_on_weaken {A} (m : M W A) (Pre Pre' : gmap string value → Prop) P :
  emits_on Pre P m → (∀ s, Pre' s → Pre s) → emits_on Pre' P m.
Proof. intros Hm Hpre st HP. apply Hm, Hpre, HP. Qed.

Lemma emits_on_nothing {A} (m : M W A) Pre P :
  (∀ st, trace (m st).2 = trace st) → emits_on Pre P m.
Proof. intros Hm st _. exists []. by rewrite app_nil_r. Qed.

Lemma emits_on_ret {A} (a : A) Pre P : emits_on Pre P (mret a : M W A).
Proof. by apply emits_on_nothing. Qed.

Lemma emits_on_raise {A} e Pre P : emits_on Pre P (raise e : M W A).
Proof. by apply emits_on_nothing. Qed.

Lemma emits_on_get_attr key Pre P : emits_on Pre P (get_attr key : M W value).
Proof.
  apply emits_on_nothing. intros st. unfold get_attr.
  by destruct (session st !! key).
Qed.

Lemma emits_on_has_key key Pre P : emits_on Pre P (has_key key : M W bool).
Proof. by apply emits_on_nothing. Qed.

Lemma emits_on_set_attr key v Pre P : emits_on Pre P (set_attr key v : M W ()).
Proof. by apply emits_on_nothing. Qed.

Lemma emits_on_setdefault key v Pre P : emits_on Pre P (setdefault key v : M W ()).
Proof.
  apply emits_on_nothing. intros st. unfold setdefault.
  by destruct (session st !! key).
Qed.

Lemma emits_on_emit ev Pre (P : event → Prop) :
  P ev → emits_on Pre P (emit ev : M W ()).
Proof. intros Hev st _. exists [ev]. split; first done. by constructor. Qed.

Lemma emits_on_call {A} ev (op : W → outcome A * W) Pre (P : event → Prop) :
  P ev → emits_on Pre P (call ev op).
Proof.
  intros Hev st _. exists [ev]. unfold call.
  destruct (op (world st)). split; first done. by constructor.
Qed.

Lemma emits_on_bind {A B} (m : M W A) (f : A → M W B) Pre Q P :
  emits_on Pre P m → triple Pre m Q (λ _, True) → (∀ a, emits_on Q P (f a)) →
  emits_on Pre P (m ≫= f).
Proof.
  intros Hm Ht Hf st Hpre.
  destruct (Hm st Hpre) as (evs & Htrace & Hall).
  specialize (Ht st Hpre). unfold mbind, M_bind.
  destruct (m st) as [[a|e] st1]; simpl in *.
  - destruct (Hf a st1 Ht) as (evs' & Htrace' & Hall').
    exists (evs ++ evs'). split; last by apply Forall_app.
    by rewrite Htrace', Htrace, app_assoc.
  - by exists evs.
Qed.

Lemma triple_any {A} (m : M W A) (Pre : gmap string value → Prop) :
  triple Pre m (λ _, True) (λ _, True).
Proof. intros st _. by destruct (m st) as [[a|e] st1]. Qed.

Lemma emits_bind {A B} (m : M W A) (f : A → M W B) P :
  emits_on (λ _, True) P m → (∀ a, emits_on (λ _, True) P (f a)) →
  emits_on (λ _, True) P (m ≫= f).
Proof. intros Hm Hf. eapply emits_on_bind; [done | apply triple_any | done]. Qed.

Lemma emits_for_each {A} (xs : list A) (body : A → M W ()) P :
  (∀ x, emits_on (λ _, True) P (body x)) →
  emits_on (λ _, True) P (for_each xs body).
Proof.
  intros Hb. induction xs as [|x xs IH]; simpl.
  - apply emits_on_ret.
  - apply emits_bind; [apply Hb | intros _; apply IH].
Qed.

Lemma emits_stream_run cfg thread_id assistant_id (P : event → Prop) :
  (∀ m i, P (ApiRunStream thread_id assistant_id m i)) →
  (∀ ds, P (StChatStream assistant ds)) →
  emits_on (λ _, True) P (stream_run cfg thread_id assistant_id : M W string).
Proof.
  intros Hrun Hshow st _. unfold stream_run.
  destruct (create_and_stream _ _ _ _ _) as [[[ds [e|]]|e] w]; simpl.
  - eexists [_; _]. rewrite <- app_assoc. split; first done. by repeat constructor.
  - eexists [_; _]. rewrite <- app_assoc. split; first done. by repeat constructor.
  - eexists [_]. split; first done. by repeat constructor.
Qed.

Lemma emits_initialize_openai_client cfg (P : event → Prop) :
  (∀ k, P (ApiOpenAI k)) → (∀ k, P (ApiAssistantsRetrieve k)) →
  emits_on (λ _, True) P (initialize_openai_client cfg : M W string).
Proof.
  intros H1 H2. apply emits_bind; [|intros _]; by apply emits_on_call.
Qed.

Lemma emits_setup_streamlit_ui cfg isfile (P : event → Prop) :
  (∀ t, P (StSetPageConfig t)) → (∀ b, P (StMarkdown b)) →
  (∀ p, P (StSidebarImage p)) →
  emits_on (λ _, True) P (setup_streamlit_ui cfg isfile : M W ()).
Proof.
  intros H1 H2 H3.
  unfold setup_streamlit_ui, apply_custom_css, os_path_isfile.
  repeat (apply emits_bind; [|intros ?]);
    repeat case_match;
    auto using emits_on_emit, emits_on_ret, emits_on_raise.
Qed.

Lemma emits_start_new_chat_session (P : event → Prop) :
  P ApiThreadsCreate →
  emits_on (λ _, True) P (start_new_chat_session : M W ()).
Proof.
  intros H. unfold start_new_chat_session.
  repeat (apply emits_bind; [|intros ?]);
    auto using emits_on_set_attr, emits_on_call.
Qed.

Lemma emits_messages_append m P :
  emits_on (λ _, True) P (messages_append m : M W ()).
Proof.
  apply emits_on_nothing. intros st.
  destruct (messages_append_cases m st) as [(l & _ & ->)|(e & ->)]; done.
Qed.

Lemma emits_process cfg user_input assistant_id (P : event → Prop) :
  (∀ ev, idle_text ev = false → banner ev = false → P ev) →
  P (StError "Thread ID is None. Starting a new chat session.") →
  emits_on (λ _, True) P
    (process_and_display_chat_interaction cfg user_input assistant_id : M W ()).
Proof.
  intros HP Herr. unfold process_and_display_chat_interaction.
  apply emits_bind; first apply emits_messages_append. intros _.
  apply emits_bind; first by apply emits_on_emit, HP. intros _.
  apply emits_bind; first apply emits_on_get_attr. intros tid.
  case_bool_decide.
  - apply emits_bind; first by apply emits_on_emit. intros _.
    by apply emits_start_new_chat_session, HP.
  - apply emits_bind.
    { apply emits_bind; first apply emits_on_get_attr.
      intros ?. by apply emits_on_call, HP. }
    intros _. apply emits_bind.
    { apply emits_bind; first apply emits_on_get_attr.
      intros ?. apply emits_stream_run; intros; by apply HP. }
    intros ?. apply emits_messages_append.
Qed.

(** ** Runs of the script without a login *)

(** A run of the script whose [authentication_status] is not [True] leaves
    the three chat slots of the session as they were (the entries that the
    authenticator keeps for itself are not part of this model) and adds
    nothing of the chat to the page or to the service: no chat message, no
    chat box, no thread, no post, no run. *)
Theorem main_unauthenticated cfg inp st :
  authentication_status inp ≠ Some true →
  (∀ key, key ∈ chat_keys →
     session (main cfg inp st).2 !! key = session st !! key) ∧
  ∃ evs, trace (main cfg inp st).2 = trace st ++ evs ∧
         Forall (λ ev, chat_event ev = false) evs.
Proof.
  intros Hauth. split.
  - intros key _. f_equal.
    revert st. change (silent (main cfg inp : M W ())). unfold main.
    apply silent_bind; first apply silent_initialize_openai_client. intros aid.
    apply silent_bind; first apply silent_setup_streamlit_ui. intros _.
    apply silent_bind.
    { destruct (hashed_pw inp); [apply silent_raise | apply silent_ret]. }
    intros _. apply silent_bind.
    { case_bool_decide; [apply silent_emit | apply silent_ret]. }
    intros _. apply silent_bind.
    { case_bool_decide; [apply silent_emit | apply silent_ret]. }
    intros _. rewrite bool_decide_eq_false_2 by done. apply silent_ret.
  - cut (emits_on (λ _, True) (λ ev, chat_event ev = false) (main cfg inp : M W ())).
    { intros Hm. by apply Hm. }
    unfold main.
    apply emits_bind; first by apply emits_initialize_openai_client. intros aid.
    apply emits_bind; first by apply emits_setup_streamlit_ui. intros _.
    apply emits_bind.
    { destruct (hashed_pw inp); [apply emits_on_raise | apply emits_on_ret]. }
    intros _. apply emits_bind.
    { case_bool_decide; [by apply emits_on_emit | apply emits_on_ret]. }
    intros _. apply emits_bind.
    { case_bool_decide; [by apply emits_on_emit | apply emits_on_ret]. }
    intros _. rewrite bool_decide_eq_false_2 by done. apply emits_on_ret.
Qed.

(** A run whose [authentication_status] is not [True] and that gets to its
    end shows exactly one banner, as the last thing on the page: the error
    for wrong credentials ([False]), the warning when none were entered
    ([None]). *)
Theorem main_login_banner cfg inp st st' :
  authentication_status inp ≠ Some true →
  main cfg inp st = (Ok (), st') →
  ∃ evs, trace st' = trace st ++ evs ++ [login_banner (authentication_status inp)] ∧
         Forall (λ ev, banner ev = false) evs.
Proof.
  intros Hauth Hrun. unfold main in Hrun.
  destruct (emits_initialize_openai_client cfg (λ ev, banner ev = false)
              ltac:(done) ltac:(done) st I) as (evs1 & Ht1 & Hall1).
  destruct (initialize_openai_client cfg st) as [[aid|e] st1] eqn:E1;
    last by rewrite (bind_raise _ _ _ _ _ E1) in Hrun.
  rewrite (bind_ok _ _ _ _ _ E1) in Hrun.
  destruct (emits_setup_streamlit_ui cfg (isfile inp) (λ ev, banner ev = false)
              ltac:(done) ltac:(done) ltac:(done) st1 I) as (evs2 & Ht2 & Hall2).
  destruct (setup_streamlit_ui cfg (isfile inp) st1) as [[[]|e] st2] eqn:E2;
    last by rewrite (bind_raise _ _ _ _ _ E2) in Hrun.
  rewrite (bind_ok _ _ _ _ _ E2) in Hrun.
  simpl in Ht1, Ht2.
  exists (evs1 ++ evs2). split; last by apply Forall_app.
  revert Hrun. unfold mbind, M_bind.
  destruct (hashed_pw inp) as [e|]; first done. simpl.
  destruct (authentication_status inp) as [[]|]; first done.
  all: repeat (first [rewrite bool_decide_eq_true_2 by done
                     | rewrite bool_decide_eq_false_2 by done]; simpl).
  all: intros [= <-]; simpl; by rewrite Ht2, Ht1, <- !app_assoc.
Qed.

(** ** Runs of the script as a whole *)

Lemma triple_start_new_started (Pre : gmap string value → Prop) :
  triple Pre (start_new_chat_session : M W ()) chat_started chat_started.
Proof.
  apply triple_start_new_chat_session; intros; unfold chat_started;
    by simplify_map_eq.
Qed.

Lemma triple_process_started cfg user_input assistant_id :
  triple chat_started
    (process_and_display_chat_interaction cfg user_input assistant_id : M W ())
    chat_started chat_started.
Proof.
  unfold process_and_display_chat_interaction.
  eapply triple_bind.
  { apply (triple_messages_append _ chat_started chat_started chat_started);
      first done.
    intros s l Hs _. unfold chat_started in *. by simplify_map_eq. }
  intros _.
  eapply triple_bind; first by apply triple_silent, silent_emit. intros _.
  eapply triple_bind; first by apply triple_silent, silent_get_attr. intros tid.
  case_bool_decide.
  - eapply triple_bind; first by apply triple_silent, silent_emit. intros _.
    apply triple_start_new_started.
  - eapply triple_bind.
    { apply triple_silent, silent_bind; first apply silent_get_attr.
      intros ?. apply silent_call. }
    intros _. eapply triple_bind.
    { apply triple_silent, silent_bind; first apply silent_get_attr.
      intros ?. apply silent_stream_run. }
    intros response.
    apply triple_messages_append; first done.
    intros s l Hs _. unfold chat_started in *. by simplify_map_eq.
Qed.

Lemma triple_handle_started cfg chat_input assistant_id :
  triple chat_started
    (handle_chat_interaction cfg chat_input assistant_id : M W ())
    chat_started chat_started.
Proof.
  unfold handle_chat_interaction.
  eapply triple_bind; first by apply triple_silent, silent_has_key. intros present.
  eapply triple_bind.
  { apply triple_silent. destruct present; last apply silent_ret.
    apply silent_bind; [apply silent_get_attr | intros ?; apply silent_ret]. }
  intros [].
  - eapply triple_bind; first by apply triple_silent, silent_display_chat_messages.
    intros _.
    eapply triple_bind; first by apply triple_silent, silent_emit. intros _.
    destruct (submitted chat_input).
    + apply triple_process_started.
    + apply triple_silent, silent_ret.
  - apply triple_silent, silent_emit.
Qed.

Lemma triple_initialize_returns (Pre R : gmap string value → Prop) :
  triple Pre (initialize_chat_variables : M W ()) (λ _, True) R.
Proof.
  intros st _. by destruct (initialize_chat_variables_returns st) as (st' & -> & _).
Qed.

Lemma triple_main_prelude cfg inp (Pre Q R : gmap string value → Prop)
    (tail : string → M W ()) :
  (∀ s, Pre s → R s) →
  (∀ aid, triple Pre (tail aid) Q R) →
  triple Pre
    (assistant_id ← initialize_openai_client cfg ;
     setup_streamlit_ui cfg (isfile inp) ;;
     (match hashed_pw inp with Some e => raise e | None => mret () end : M W ()) ;;
     (if bool_decide (authentication_status inp = Some false)
      then emit (StError "Username/password is incorrect") else mret () : M W ()) ;;
     (if bool_decide (authentication_status inp = None)
      then emit (StWarning "Írja be a felhasználónevét és jelszavát!")
      else mret () : M W ()) ;;
     tail assistant_id)
    Q R.
Proof.
  intros HR Htail.
  eapply triple_bind;
    first by apply triple_silent_weak; [apply silent_initialize_openai_client|].
  intros assistant_id.
  eapply triple_bind;
    first by apply triple_silent_weak; [apply silent_setup_streamlit_ui|].
  intros _.
  eapply triple_bind.
  { apply triple_silent_weak; last done.
    destruct (hashed_pw inp); [apply silent_raise | apply silent_ret]. }
  intros _.
  eapply triple_bind.
  { apply triple_silent_weak; last done.
    case_bool_decide; [apply silent_emit | apply silent_ret]. }
  intros _.
  eapply triple_bind.
  { apply triple_silent_weak; last done.
    case_bool_decide; [apply silent_emit | apply silent_ret]. }
  intros _. apply Htail.
Qed.

Lemma triple_main_started cfg inp :
  triple (λ s, unset s ∨ chat_started s) (main cfg inp : M W ())
    (λ s, unset s ∨ chat_started s) (λ s, unset s ∨ chat_started s).
Proof.
  unfold main. apply triple_main_prelude; first done. intros aid.
  case_bool_decide; last by apply triple_silent, silent_ret.
  eapply triple_bind; first by apply triple_silent, silent_emit. intros _.
  eapply triple_bind; first by apply triple_silent, silent_emit. intros _.
  eapply triple_bind; first apply triple_initialize_returns. intros _.
  apply triple_bind with (Q := chat_started).
  { eapply triple_weaken; first apply (triple_start_new_started (λ _, True)); auto. }
  intros _.
  eapply triple_weaken; first apply triple_handle_started; auto.
Qed.

(** In every session state that runs of the script can leave behind, the
    chat slots are either all missing or [start_chat] is [True]: no run
    ends with the chat marked as not started. *)
Theorem reachable_chat_started s :
  reachable (W := W) s → unset s ∨ s !! "start_chat" = Some (VBool true).
Proof.
  induction 1 as [|s s' _ IH Hsame|s cfg inp tr w _ IH].
  - left. intros key _. apply lookup_empty.
  - destruct (chat_slots_same _ _ Hsame) as (Es & _ & _).
    destruct IH as [Hunset|Hs].
    + left. intros key Hkey. rewrite Hsame by done. by apply Hunset.
    + right. by rewrite Es.
  - pose proof (triple_main_started cfg inp (mkRun s tr w) IH) as Hrun.
    by destruct (main cfg inp (mkRun s tr w)) as [[[]|e] st'].
Qed.

Lemma one_exchange_length l : one_exchange l → length l ≤ 2.
Proof. intros [->|[(u & ->)|(u & r & ->)]]; simpl; lia. Qed.

Lemma triple_initialize_short :
  triple (λ s, unset s ∨ short_log s) (initialize_chat_variables : M W ())
    short_log (λ s, unset s ∨ short_log s).
Proof.
  intros st [Hunset|(l & Hm & Hone)].
  - rewrite initialize_chat_variables_unset by done. simpl.
    exists []. split; [by simplify_map_eq | by left].
  - destruct (initialize_chat_variables_returns st)
      as (st' & -> & _ & _ & _ & Hkeep & _).
    exists l. split; [by apply Hkeep | done].
Qed.

Lemma triple_start_new_short :
  triple short_log (start_new_chat_session : M W ()) fresh_chat short_log.
Proof.
  apply triple_start_new_chat_session.
  - intros s tid _. unfold fresh_chat.
    split_and!; [by simplify_map_eq | by simplify_map_eq |].
    exists tid. by simplify_map_eq.
  - intros s (l & Hm & Hone). exists l. split; [by simplify_map_eq | done].
Qed.

Lemma handle_chat_interaction_fresh cfg chat_input assistant_id st :
  fresh_chat (session st) →
  match handle_chat_interaction cfg chat_input assistant_id st with
  | (Ok _, st') =>
      match submitted chat_input with
      | Some u => one_turn u (session st')
      | None => fresh_chat (session st')
      end
  | (Raise _, st') =>
      session st' !! "start_chat" = Some (VBool true) ∧
      ∃ u, submitted chat_input = Some u ∧
           session st' !! "messages" = Some (VList [mkMessage user u])
  end.
Proof.
  intros (Hs & Hm & tid & Ht).
  rewrite (handle_chat_interaction_started _ _ _ _ (VBool true) [] Hs eq_refl Hm).
  destruct (submitted chat_input) as [u|]; last by (simpl; unfold fresh_chat; eauto).
  erewrite process_thread_set; [|exact Hm|exact Ht|done]. cbv zeta.
  destruct (messages_create _ _ _ _) as [[[]|e] w1].
  - destruct (create_and_stream _ _ _ _ _) as [[[ds [e|]]|e] w2]; simpl.
    + split; first by simplify_map_eq. exists u. by simplify_map_eq.
    + split; first by simplify_map_eq.
      exists tid, (joined ds). by simplify_map_eq.
    + split; first by simplify_map_eq. exists u. by simplify_map_eq.
  - simpl. split; first by simplify_map_eq. exists u. by simplify_map_eq.
Qed.

Lemma triple_handle_short cfg chat_input assistant_id :
  triple fresh_chat (handle_chat_interaction cfg chat_input assistant_id : M W ())
    short_log short_log.
Proof.
  intros st Hfresh.
  pose proof (handle_chat_interaction_fresh cfg chat_input assistant_id st Hfresh) as H.
  destruct (handle_chat_interaction cfg chat_input assistant_id st) as [[[]|e] st'].
  - destruct (submitted chat_input) as [u|].
    + destruct H as (_ & tid & r & _ & Hm). eexists. split; first done.
      right; right; eauto.
    + destruct H as (_ & Hm & _). eexists. split; first done. by left.
  - destruct H as (_ & u & _ & Hm). eexists. split; first done. right; left; eauto.
Qed.

Lemma triple_main_short cfg inp :
  triple (λ s, unset s ∨ short_log s) (main cfg inp : M W ())
    (λ s, unset s ∨ short_log s) (λ s, unset s ∨ short_log s).
Proof.
  unfold main. apply triple_main_prelude; first done. intros aid.
  case_bool_decide; last by apply triple_silent, silent_ret.
  eapply triple_bind; first by apply triple_silent, silent_emit. intros _.
  eapply triple_bind; first by apply triple_silent, silent_emit. intros _.
  eapply triple_bind; first apply triple_initialize_short. intros _.
  apply triple_bind with (Q := fresh_chat).
  { eapply triple_weaken; first apply triple_start_new_short; auto. }
  intros _.
  eapply triple_weaken; first apply triple_handle_short; auto.
Qed.

(** In every session state that runs of the script can leave behind, the
    log holds at most the two messages of one exchange: it is empty, or
    one user message, or one user message followed by one assistant
    message. *)
Theorem reachable_one_exchange s l :
  reachable (W := W) s →
  s !! "messages" = Some (VList l) →
  one_exchange l ∧ length l ≤ 2.
Proof.
  intros Hreach Hm.
  assert (Hinv : unset s ∨ short_log s).
  { clear l Hm. induction Hreach as [|s s' _ IH Hsame|s cfg inp tr w _ IH].
    - left. intros key _. apply lookup_empty.
    - destruct (chat_slots_same _ _ Hsame) as (_ & _ & Em).
      destruct IH as [Hunset|(l & Hl & Hone)].
      + left. intros key Hkey. rewrite Hsame by done. by apply Hunset.
      + right. exists l. by rewrite Em.
    - pose proof (triple_main_short cfg inp (mkRun s tr w) IH) as Hrun.
      by destruct (main cfg inp (mkRun s tr w)) as [[[]|e] st']. }
  destruct Hinv as [Hunset|(l' & Hl' & Hone)].
  - rewrite Hunset in Hm; first done. apply chat_keys_elem. auto.
  - assert (l' = l) as -> by congruence.
    split; [done | by apply one_exchange_length].
Qed.


Lemma emits_display_chat_messages (P : event → Prop) :
  (∀ r b, P (StChatMessage r b)) →
  emits_on (λ _, True) P (display_chat_messages : M W ()).
Proof.
  intros HP. unfold display_chat_messages.
  apply emits_bind; first apply emits_on_get_attr.
  intros v. repeat case_match;
    auto using emits_on_ret, emits_on_raise.
  apply emits_for_each. intros m. by apply emits_on_emit.
Qed.

Lemma emits_handle_started cfg chat_input assistant_id :
  emits_on chat_started (λ ev, idle_text ev = false)
    (handle_chat_interaction cfg chat_input assistant_id : M W ()).
Proof.
  intros st Hs. unfold chat_started in Hs. unfold handle_chat_interaction.
  erewrite bind_ok; last first.
  { unfold has_key. rewrite Hs. by rewrite bool_decide_eq_true_2. }
  erewrite bind_ok; last first.
  { erewrite bind_ok; last by (unfold get_attr; rewrite Hs). done. }
  simpl.
  revert st Hs. cut (emits_on (λ _, True) (λ ev, idle_text ev = false)
    (display_chat_messages ;;
     emit (StChatInput (USER_PROMPT cfg)) ;;
     match submitted chat_input with
     | Some user_input =>
         process_and_display_chat_interaction cfg user_input assistant_id
     | None => mret ()
     end : M W ())).
  { intros Hm st _. by apply Hm. }
  apply emits_bind; first by apply emits_display_chat_messages. intros _.
  apply emits_bind; first by apply emits_on_emit. intros _.
  destruct (submitted chat_input); last apply emits_on_ret.
  by apply emits_process.
Qed.

(** No run of the script writes the idle text [BEGIN_MESSAGE]: whatever
    the session, the login outcome and the service do, the idle screen of
    [handle_chat_interaction] is never shown, because every authenticated
    run starts a chat before it handles the interaction. *)
Theorem main_never_idle cfg inp st :
  ∃ evs, trace (main cfg inp st).2 = trace st ++ evs ∧
         Forall (λ ev, idle_text ev = false) evs.
Proof.
  cut (emits_on (λ _, True) (λ ev, idle_text ev = false) (main cfg inp : M W ())).
  { intros Hm. by apply Hm. }
  unfold main.
  apply emits_bind; first by apply emits_initialize_openai_client. intros aid.
  apply emits_bind; first by apply emits_setup_streamlit_ui. intros _.
  apply emits_bind.
  { destruct (hashed_pw inp); [apply emits_on_raise | apply emits_on_ret]. }
  intros _. apply emits_bind.
  { case_bool_decide; [by apply emits_on_emit | apply emits_on_ret]. }
  intros _. apply emits_bind.
  { case_bool_decide; [by apply emits_on_emit | apply emits_on_ret]. }
  intros _. case_bool_decide; last apply emits_on_ret.
  apply emits_bind; first by apply emits_on_emit. intros _.
  apply emits_bind; first by apply emits_on_emit. intros _.
  apply emits_bind.
  { apply emits_for_each. intros kd. apply emits_on_setdefault. }
  intros _.
  apply emits_on_bind with (Q := chat_started).
  - by apply emits_start_new_chat_session.
  - eapply triple_weaken; first apply (triple_start_new_started (λ _, True)); auto.
  - intros _. apply emits_handle_started.
Qed.

(** With [LOGO] unset no run of the script gets to its end: it raises
    before the login outcome is looked at, with the session as it was; if
    the client and the assistant could be set up, what escapes is the
    [TypeError] of the file test. *)
Theorem main_without_logo cfg inp st :
  LOGO cfg = None →
  ∃ e, (main cfg inp st).1 = Raise e ∧
       session (main cfg inp st).2 = session st ∧
       (∀ aid st1, initialize_openai_client cfg st = (Ok aid, st1) →
        e = TypeError "stat: path should be string, bytes, os.PathLike or integer, not NoneType").
Proof.
  intros Hlogo. unfold main.
  pose proof (silent_initialize_openai_client cfg st) as Hsil.
  destruct (initialize_openai_client cfg st) as [[aid|e] st1] eqn:E1.
  - rewrite (bind_ok _ _ _ _ _ E1). simpl in Hsil.
    erewrite bind_raise; last first.
    { unfold setup_streamlit_ui, apply_custom_css.
      erewrite bind_ok; last done. erewrite bind_ok; last done.
      erewrite bind_raise; first done.
      unfold os_path_isfile. by rewrite Hlogo. }
    eexists. split; first done. simpl. by split.
  - rewrite (bind_raise _ _ _ _ _ E1). simpl in *.
    exists e. split_and!; [done | done | by intros ? ? [=]].
Qed.

(** ** The idle invariant over every state the operations pass through *)

Lemma accounted_no_thread_when_idle s : thread_accounted s → no_thread_when_idle s.
Proof.
  intros [Hlog Hthread] Hm Hs.
  destruct Hlog as [v Hv]; first by eexists.
  destruct (Hthread v Hv) as [->|Hstarted]; [done | congruence].
Qed.

Lemma triple_initialize_accounted (R : gmap string value → Prop) :
  triple thread_accounted (initialize_chat_variables : M W ()) thread_accounted R.
Proof.
  intros st [Hlog Hthread].
  destruct (initialize_chat_variables_returns st)
    as (st' & -> & _ & Ht' & _ & Hkeep & Hnew).
  split; first done.
  intros v Hv.
  destruct (session st !! "thread_id") as [v0|] eqn:Ht.
  - assert (v0 = v) as -> by (specialize (Hkeep _ _ Ht); congruence).
    destruct (Hthread v eq_refl) as [->|Hstarted]; [by left | right].
    by apply Hkeep.
  - left. specialize (Hnew eq_refl). congruence.
Qed.

Lemma triple_reset_accounted (P R : gmap string value → Prop) :
  triple P (reset_chat_session : M W ()) thread_accounted R.
Proof.
  intros st _. simpl. split.
  - intros _. by simplify_map_eq.
  - intros v Hv. left. by simplify_map_eq.
Qed.

Lemma triple_start_new_accounted :
  triple thread_accounted (start_new_chat_session : M W ())
    thread_accounted thread_accounted.
Proof.
  apply triple_start_new_chat_session.
  - intros s tid _. split.
    + intros _. by simplify_map_eq.
    + intros v _. right. by simplify_map_eq.
  - intros s [Hlog Hthread]. split.
    + by rewrite !lookup_insert_ne.
    + intros v _. right. by simplify_map_eq.
Qed.

Lemma triple_messages_append_accounted m :
  triple thread_accounted (messages_append m : M W ())
    thread_accounted thread_accounted.
Proof.
  apply triple_messages_append; first done.
  intros s l [Hlog Hthread] Hm. split.
  - intros _. rewrite lookup_insert_ne by done. apply Hlog. by eexists.
  - intros v. rewrite !lookup_insert_ne by done. apply Hthread.
Qed.

Lemma triple_process_accounted cfg user_input assistant_id :
  triple thread_accounted
    (process_and_display_chat_interaction cfg user_input assistant_id : M W ())
    thread_accounted thread_accounted.
Proof.
  unfold process_and_display_chat_interaction.
  eapply triple_bind; first apply triple_messages_append_accounted. intros _.
  eapply triple_bind; first by apply triple_silent, silent_emit. intros _.
  eapply triple_bind; first by apply triple_silent, silent_get_attr. intros tid.
  case_bool_decide.
  - eapply triple_bind; first by apply triple_silent, silent_emit. intros _.
    apply triple_start_new_accounted.
  - eapply triple_bind.
    { apply triple_silent, silent_bind; first apply silent_get_attr.
      intros ?. apply silent_call. }
    intros _. eapply triple_bind.
    { apply triple_silent, silent_bind; first apply silent_get_attr.
      intros ?. apply silent_stream_run. }
    intros response. apply triple_messages_append_accounted.
Qed.

Lemma triple_handle_accounted cfg chat_input assistant_id :
  triple thread_accounted
    (handle_chat_interaction cfg chat_input assistant_id : M W ())
    thread_accounted thread_accounted.
Proof.
  unfold handle_chat_interaction.
  eapply triple_bind; first by apply triple_silent, silent_has_key. intros present.
  eapply triple_bind.
  { apply triple_silent. destruct present; last apply silent_ret.
    apply silent_bind; [apply silent_get_attr | intros ?; apply silent_ret]. }
  intros [].
  - eapply triple_bind; first by apply triple_silent, silent_display_chat_messages.
    intros _.
    eapply triple_bind; first by apply triple_silent, silent_emit. intros _.
    destruct (submitted chat_input).
    + apply triple_process_accounted.
    + apply triple_silent, silent_ret.
  - apply triple_silent, silent_emit.
Qed.

Lemma triple_main_accounted cfg inp :
  triple thread_accounted (main cfg inp : M W ()) thread_accounted thread_accounted.
Proof.
  unfold main. apply triple_main_prelude; first done. intros aid.
  case_bool_decide; last by apply triple_silent, silent_ret.
  eapply triple_bind; first by apply triple_silent, silent_emit. intros _.
  eapply triple_bind; first by apply triple_silent, silent_emit. intros _.
  eapply triple_bind; first apply triple_initialize_accounted. intros _.
  eapply triple_bind; first apply triple_start_new_accounted. intros _.
  apply triple_handle_accounted.
Qed.

Lemma triple_end {A} (m : M W A) (P Q : gmap string value → Prop) st :
  triple P m Q Q → P (session st) → Q (session (m st).2).
Proof.
  intros Hm HP. specialize (Hm st HP). by destruct (m st) as [[a|e] st'].
Qed.

Lemma visited_accounted s : visited (W := W) s → thread_accounted s.
Proof.
  induction 1 as [|s s' _ IH Hsame|s tr w _ IH|s tr w _ IH|s tr w _ IH
                  |s cfg u aid tr w _ IH|s cfg ci aid tr w _ IH|s cfg inp tr w _ IH].
  - split.
    + rewrite lookup_empty. by intros [? ?].
    + intros v. by rewrite lookup_empty.
  - destruct (chat_slots_same _ _ Hsame) as (Es & Et & Em).
    destruct IH as [Hlog Hthread]. split.
    + by rewrite Em, Et.
    + intros v. rewrite Et, Es. apply Hthread.
  - by apply (triple_end _ _ _ (mkRun s tr w)
                (triple_initialize_accounted thread_accounted)).
  - by apply (triple_end _ _ _ (mkRun s tr w)
                (triple_reset_accounted thread_accounted thread_accounted)).
  - by apply (triple_end _ _ _ (mkRun s tr w) triple_start_new_accounted).
  - by apply (triple_end _ _ _ (mkRun s tr w) (triple_process_accounted _ _ _)).
  - by apply (triple_end _ _ _ (mkRun s tr w) (triple_handle_accounted _ _ _)).
  - by apply (triple_end _ _ _ (mkRun s tr w) (triple_main_accounted _ _)).
Qed.

Lemma reachable_visited s : reachable (W := W) s → visited s.
Proof.
  induction 1 as [|s s' _ IH Hsame|s cfg inp tr w _ IH].
  - apply visited_fresh.
  - by apply (visited_foreign s).
  - by apply visited_run.
Qed.

(** C9. In every session state that the chat operations can pass through
    (the states that runs of the script end in, and also the states right
    after initialisation, after a reset, after starting a new chat and
    after handling a submission, returned or raised), [thread_id] is
    [None] whenever the log is empty and [start_chat] is [False].  The
    slots written by initialising a dictionary without chat slots are the
    defaults, with [thread_id] [None]; and from every such state each of
    initialisation, reset, starting a new chat and handling a submission
    leaves the property in place, whether it returns or raises.  Reset,
    starting a new chat and handling a submission keep the property from
    any dictionary whatever. *)
Theorem thread_none_while_idle s :
  visited (W := W) s →
  no_thread_when_idle s ∧
  (∀ st : run_state W,
     unset (session st) →
     let s0 := session (initialize_chat_variables st).2 in
     s0 !! "start_chat" = Some (VBool false) ∧
     s0 !! "thread_id" = Some VNone ∧
     s0 !! "messages" = Some (VList [])) ∧
  (∀ tr (w : W),
     no_thread_when_idle (session (initialize_chat_variables (mkRun s tr w)).2) ∧
     no_thread_when_idle (session (reset_chat_session (mkRun s tr w)).2) ∧
     no_thread_when_idle (session (start_new_chat_session (mkRun s tr w)).2) ∧
     ∀ cfg user_input assistant_id,
       no_thread_when_idle
         (session (process_and_display_chat_interaction cfg user_input assistant_id
                     (mkRun s tr w)).2)) ∧
  triple no_thread_when_idle (reset_chat_session : M W ())
    no_thread_when_idle (λ _, False) ∧
  triple no_thread_when_idle (start_new_chat_session : M W ())
    no_thread_when_idle no_thread_when_idle ∧
  (∀ cfg user_input assistant_id,
     triple no_thread_when_idle
       (process_and_display_chat_interaction cfg user_input assistant_id : M W ())
       no_thread_when_idle no_thread_when_idle) ∧
  (∀ s', reachable (W := W) s' → visited s').
Proof.
  intros Hvis. split_and!.
  - by apply accounted_no_thread_when_idle, visited_accounted.
  - intros st Hunset s0. subst s0.
    rewrite initialize_chat_variables_unset by done. simpl. by simplify_map_eq.
  - intros tr w. split_and!; [| | |intros cfg user_input assistant_id];
      apply accounted_no_thread_when_idle, visited_accounted.
    + by apply visited_initialize.
    + by apply visited_reset.
    + by apply visited_start_new.
    + by apply visited_process.
  - apply triple_reset_idle.
  - apply triple_start_new_idle.
  - apply triple_process_idle.
  - apply reachable_visited.
Qed.

End Behaviour.

(** ** Concrete runs of the further behaviour *)

Lemma start_new_chat_session_failure_witness :
  threads_create down = (Raise (ServiceError "threads.create"), down) ∧
  ∃ st',
    start_new_chat_session (start orphaned down)
      = (Raise (ServiceError "threads.create"), st') ∧
    session st' !! "start_chat" = Some (VBool true) ∧
    session st' !! "messages" = Some (VList [m1; m2]).
Proof.
  assert (Hdown : threads_create down = (Raise (ServiceError "threads.create"), down))
    by reflexivity.
  split; first exact Hdown.
  destruct (start_new_chat_session_failure (start orphaned down)
              (ServiceError "threads.create") down Hdown)
    as (st' & Hrun & Hs & Hkeep & _).
  exists st'. split; first exact Hrun. split; first exact Hs.
  rewrite Hkeep by discriminate. reflexivity.
Defined.

Lemma process_without_log_witness :
  ∃ name,
    process_and_display_chat_interaction demo_cfg "Hi" "asst_demo" (start ∅ serving)
      = (Raise (AttributeError name), start ∅ serving).
Proof.
  apply (process_without_log demo_cfg "Hi" "asst_demo" (start ∅ serving)).
  intros l. simpl. rewrite lookup_empty. discriminate.
Defined.

Lemma process_thread_slot_missing_witness :
  threadless !! "thread_id" = None ∧
  (process_and_display_chat_interaction demo_cfg "Hi" "asst_demo"
     (start threadless serving)).1 = Raise (AttributeError "thread_id").
Proof.
  split; first reflexivity.
  rewrite (process_thread_slot_missing demo_cfg "Hi" "asst_demo"
             (start threadless serving) [m1] eq_refl eq_refl).
  reflexivity.
Defined.

Lemma process_keeps_history_witness :
  ∃ rest,
    session (process_and_display_chat_interaction demo_cfg "Hi" "asst_demo"
               (start chatting breaking)).2 !! "messages"
      = Some (VList ([m1; m2] ++ mkMessage user "Hi" :: rest)) ∧
    length rest ≤ 1.
Proof.
  destruct (process_keeps_history demo_cfg "Hi" "asst_demo"
              (start chatting breaking) [m1; m2] (VStr "thread_0")
              eq_refl eq_refl ltac:(discriminate))
    as (rest & Hlog & Hlen & _).
  exists rest. split; [exact Hlog | exact Hlen].
Defined.

Lemma handle_chat_interaction_idle_witness :
  handle_chat_interaction demo_cfg (Some "Hi") "asst_demo" (start ∅ serving) =
    (Ok (), mkRun ∅ [StWrite (Some "Press start")] serving).
Proof.
  rewrite (handle_chat_interaction_idle demo_cfg (Some "Hi") "asst_demo"
             (start ∅ serving));
    last (left; reflexivity).
  reflexivity.
Defined.

Lemma handle_chat_interaction_quiet_witness :
  handle_chat_interaction demo_cfg (Some "") "asst_demo" (start chatting serving) =
    (Ok (), mkRun chatting
                  [StChatMessage user "Hello";
                   StChatMessage assistant "Hi, how can I help?";
                   StChatInput (Some "Your question")]
                  serving).
Proof.
  rewrite (handle_chat_interaction_quiet demo_cfg (Some "") "asst_demo"
             (start chatting serving) (VBool true) [m1; m2]
             eq_refl eq_refl eq_refl);
    last (right; reflexivity).
  reflexivity.
Defined.

Lemma handle_chat_interaction_submits_witness :
  session (handle_chat_interaction demo_cfg (Some "Hi") "asst_demo"
             (start chatting serving)).2 !! "messages" =
    Some (VList [m1; m2; mkMessage user "Hi"; mkMessage assistant "Hello!"]).
Proof.
  rewrite (handle_chat_interaction_submits demo_cfg "Hi" "asst_demo"
             (start chatting serving) (VBool true) [m1; m2]
             eq_refl eq_refl eq_refl);
    last discriminate.
  reflexivity.
Defined.

Lemma display_chat_messages_without_log_witness :
  ∃ e, display_chat_messages (start ∅ serving) = (Raise e, start ∅ serving) ∧
       e = AttributeError "messages".
Proof.
  destruct (display_chat_messages_without_log (start ∅ serving))
    as (e & Hrun & Hmissing & _).
  - intros l. simpl. rewrite lookup_empty. discriminate.
  - simpl. rewrite lookup_empty. discriminate.
  - exists e. split; first exact Hrun. apply Hmissing. reflexivity.
Defined.

Lemma main_unauthenticated_witness :
  session (main demo_cfg (knock (Some false) (Some "Hi")) (start chatting serving)).2
    !! "messages" = Some (VList [m1; m2]) ∧
  session (main demo_cfg (knock (Some false) (Some "Hi")) (start chatting serving)).2
    !! "thread_id" = Some (VStr "thread_0").
Proof.
  destruct (main_unauthenticated demo_cfg (knock (Some false) (Some "Hi"))
              (start chatting serving) ltac:(discriminate)) as [Hslots _].
  split.
  - rewrite (Hslots "messages") by (apply chat_keys_elem; auto).
    reflexivity.
  - rewrite (Hslots "thread_id") by (apply chat_keys_elem; auto).
    reflexivity.
Defined.

Lemma main_login_banner_witness :
  ∃ evs,
    trace (main demo_cfg (knock None None) (start ∅ calm)).2 =
      [] ++ evs ++ [StWarning "Írja be a felhasználónevét és jelszavát!"] ∧
    Forall (λ ev, banner ev = false) evs.
Proof.
  apply (main_login_banner demo_cfg (knock None None) (start ∅ calm)
           (main demo_cfg (knock None None) (start ∅ calm)).2).
  - discriminate.
  - reflexivity.
Defined.

Lemma reachable_chat_started_witness :
  reachable (session after_first_turn) ∧
  (unset (session after_first_turn) ∨
   session after_first_turn !! "start_chat" = Some (VBool true)).
Proof.
  assert (Hreach : reachable (session after_first_turn)).
  { apply (reachable_run ∅ demo_cfg (visit (Some "Hi")) [] calm), reachable_fresh. }
  split; first exact Hreach.
  exact (reachable_chat_started (session after_first_turn) Hreach).
Defined.

Lemma reachable_one_exchange_witness :
  reachable (session after_first_turn) ∧
  one_exchange [mkMessage user "Hi"; mkMessage assistant "Hello!"].
Proof.
  assert (Hreach : reachable (session after_first_turn)).
  { apply (reachable_run ∅ demo_cfg (visit (Some "Hi")) [] calm), reachable_fresh. }
  split; first exact Hreach.
  exact (proj1 (reachable_one_exchange (session after_first_turn)
                  [mkMessage user "Hi"; mkMessage assistant "Hello!"]
                  Hreach eq_refl)).
Defined.


Lemma main_rerender_fresh_chat_witness :
  chatting !! "messages" = Some (VList [m1; m2]) ∧
  fresh_chat (session (main demo_cfg (visit None) (start chatting serving)).2).
Proof.
  split; first reflexivity.
  apply (main_rerender_fresh_chat demo_cfg (visit None) (start chatting serving)
           (main demo_cfg (visit None) (start chatting serving)).2);
    reflexivity.
Defined.

Lemma main_without_logo_witness :
  ∃ e,
    (main (load_Config logoless_environ) (visit (Some "Hi")) (start chatting serving)).1
      = Raise e ∧
    session (main (load_Config logoless_environ) (visit (Some "Hi"))
               (start chatting serving)).2 = chatting.
Proof.
  destruct (main_without_logo (load_Config logoless_environ) (visit (Some "Hi"))
              (start chatting serving) eq_refl)
    as (e & Hrun & Hsession & _).
  exists e. split; [exact Hrun | exact Hsession].
Defined.

Lemma thread_none_while_idle_witness :
  visited (session after_reset) ∧
  session after_first_turn !! "thread_id" = Some (VStr "thread_0") ∧
  session after_reset !! "messages" = Some (VList []) ∧
  session after_reset !! "start_chat" = Some (VBool false) ∧
  session after_reset !! "thread_id" = Some VNone.
Proof.
  assert (Hvis : visited (session after_reset)).
  { apply (visited_reset (session after_first_turn) [] (world after_first_turn)).
    apply (visited_run ∅ demo_cfg (visit (Some "Hi")) [] calm), visited_fresh. }
  split; first exact Hvis.
  split; first reflexivity.
  split; first reflexivity.
  split; first reflexivity.
  exact (proj1 (thread_none_while_idle (session after_reset) Hvis)
           eq_refl eq_refl).
Defined.
